(** * groove: evaluation, the oracle candidate selector, the query chain
      and the objective formulator

    A shallow embedding of the Go sources

    - [eval/evaluator.go]                    (module [Eval]),
    - the [rewrite] package, oracle selector (module [Rewrite]),
    - the [formulation] package              (module [Formulation]),
    - the [learning] package, query chain    (module [Learning]),

    followed by the properties proved about them.  Go's [float64] is
    modelled by the IEEE 754 specification floats of the standard library,
    so comparisons behave as in Go (a NaN compares false with everything,
    itself included). Logging calls have no effect on any result and are
    left out. *)

From Stdlib Require Import ZArith Lia Ascii String Floats.SpecFloat.
From stdpp Require Import base option list sorting gmap strings pretty.

Open Scope Z_scope.

(** ** float64 *)

Module Float64.

Definition float64 : Type := spec_float.

(** Conversion [float64(n)] of an integer. *)
Definition of_Z (z : Z) : float64 := binary_normalize 53 1024 z 0 false.

Definition fzero : float64 := S754_zero false.
Definition fminus1 : float64 := Eval vm_compute in of_Z (-1).

Definition is_nan (a : float64) : bool :=
  match a with S754_nan => true | _ => false end.

(** Go's comparison operators on float64. *)
Definition feq (a b : float64) : bool := SFeqb a b.   (* a == b *)
Definition flt (a b : float64) : bool := SFltb a b.   (* a <  b *)
Definition fle (a b : float64) : bool := SFleb a b.   (* a <= b *)
Definition fgt (a b : float64) : bool := SFltb b a.   (* a >  b *)
Definition fge (a b : float64) : bool := SFleb b a.   (* a >= b *)

End Float64.
Import Float64.

(** ** Errors, outcomes, loops with early exit *)

(** Go's [error] values.  [ErrCacheMiss] is the package-level value
    [combinator.ErrCacheMiss], compared by identity in the source; every
    other error is told apart by its message only. *)
Inductive error : Type :=
| ErrCacheMiss
| ErrOther (msg : string).

Global Instance error_eq_dec : EqDecision error.
Proof. solve_decision. Defined.

(** What a call does: it returns, or it panics. *)
Inductive outcome (A : Type) : Type :=
| Returns (a : A)
| Panics (msg : string).
Arguments Returns {A} a.
Arguments Panics {A} msg.

(** One pass through a loop body either goes on with the next element or
    leaves the enclosing function with its return value. *)
Inductive flow (S R : Type) : Type :=
| Next (s : S)
| Exit (r : R).
Arguments Next {S R} s.
Arguments Exit {S R} r.

(** [for _, x := range xs { body }] over loop state [s]. *)
Fixpoint for_range {S R X : Type} (body : S → X → flow S R)
    (xs : list X) (s : S) : flow S R :=
  match xs with
  | [] => Next s
  | x :: xs' =>
      match body s x with
      | Next s' => for_range body xs' s'
      | Exit r => Exit r
      end
  end.

(** Go's 64-bit [int]: arithmetic wraps around. *)
Definition wrap_int (z : Z) : Z := (z + 2 ^ 63) mod 2 ^ 64 - 2 ^ 63.

(** ** Package eval (eval/evaluator.go) *)

Module Eval.

(** [trecresults.Result], [trecresults.Qrel]: one retrieved document, one
    relevance judgment. [ResultList] is a slice of results, [Qrels] maps
    a document id to its judgment and [QrelsFile] a topic to its
    [Qrels]. *)
Record Result : Type := mkResult {
  Topic : string;
  Iteration : string;
  DocId : string;
  Rank : Z;
  Score : float64;
  RunName : string
}.

Definition ResultList : Type := list Result.

Record Qrel : Type := mkQrel {
  qTopic : string;
  qIteration : string;
  qDocId : string;
  qScore : Z
}.

Record QrelsFile : Type := mkQrelsFile {
  Qrels : gmap string (gmap string Qrel)
}.

(** [Evaluator] is an interface for evaluating a retrieved list of
    documents. *)
Record Evaluator : Type := mkEvaluator {
  Name : string;
  score : ResultList → gmap string Qrel → float64
}.

(** [scores[evaluator.Name()] = evaluator.Score(results, q)] for every
    evaluator in turn. *)
Definition score_all (evaluators : list Evaluator) (results : ResultList)
    (q : gmap string Qrel) (scores : gmap string float64) : gmap string float64 :=
  foldl (λ scores evaluator, <[Name evaluator := score evaluator results q]> scores)
        scores evaluators.

(** [Evaluate] scores documents using supplied evaluation measurements. *)
Definition Evaluate (evaluators : list Evaluator) (results : ResultList)
    (qrels : QrelsFile) (topic : string) : gmap string float64 :=
  let scores : gmap string float64 := ∅ in
  (* a missing topic indexes to the nil map *)
  let q := default ∅ (Qrels qrels !! topic) in
  if (0 <? length results)%nat then
    score_all evaluators results q scores
  else
    (* If no documents were retrieved, we score with an empty list. *)
    score_all evaluators [] q scores.

(** Indexing a Go map: a missing key reads as the zero value. *)
Definition index (m : gmap string float64) (k : string) : float64 :=
  default fzero (m !! k).

End Eval.

(** ** Package rewrite: the oracle candidate selector *)

Module Rewrite.
Import Eval.

(** What the selector uses from other packages: the query representation
    ([cqr.CommonQueryRepresentation]), the statistics source, the logical
    tree of package combinator with its constructor [NewLogicalTree]
    (which returns the tree, the updated table of seen nodes and an
    error) and [tree.Documents().Results(q, name)], and the five
    evaluators handed to [Evaluate]. *)
Class Combinator : Type := {
  CQR : Type;
  StatisticsSource : Type;
  LogicalTree : Type;
  LogicalTreeNode : Type;
  NewLogicalTree :
    (string * string * CQR) → StatisticsSource → gmap Z LogicalTreeNode →
    LogicalTree * gmap Z LogicalTreeNode * option error;
  Results : LogicalTree → (string * string * CQR) → string → ResultList;
  RecallEvaluator : Evaluator;
  PrecisionEvaluator : Evaluator;
  NumRet : Evaluator;
  NumRel : Evaluator;
  NumRelRet : Evaluator
}.

Section oracle.
Context `{Combinator}.

(** [groove.PipelineQuery]: name, topic and query. *)
Definition PipelineQuery : Type := string * string * CQR.
Definition NewPipelineQuery (name topic : string) (q : CQR) : PipelineQuery :=
  (name, topic, q).
Definition pqName (q : PipelineQuery) : string := q.1.1.
Definition pqTopic (q : PipelineQuery) : string := q.1.2.
Definition pqQuery (q : PipelineQuery) : CQR := q.2.

(** Modelled from the spec: [TransformedQuery] and its [Append] are not
    among the sources. A transformed query is the current query
    together with its lineage; appending a step gives a new value whose
    chain is the prior chain plus the query it replaces. *)
Record TransformedQuery : Type := mkTransformedQuery {
  tqQueryChain : list CQR;
  tqPipelineQuery : PipelineQuery
}.

Definition Append (t : TransformedQuery) (query : PipelineQuery) : TransformedQuery :=
  {| tqQueryChain := tqQueryChain t ++ [pqQuery (tqPipelineQuery t)];
     tqPipelineQuery := query |}.

(** The zero value [TransformedQuery{}] needs a zero query, which the
    interface type [CQR] has (nil); it is a parameter of [Select]. *)

(** A candidate produced by a transformation; [Select] reads its
    [Query] only. *)
Record CandidateQuery : Type := mkCandidateQuery {
  cqQuery : CQR
}.

(** The [Transformation] interface. *)
Record Transformation : Type := mkTransformation {
  tName : string;
  Apply : CQR → list CandidateQuery * option error
}.

(** [OracleQueryChainCandidateSelector] finds the best possible
    combination of query rewrites. [seen] is a Go map, [None] when
    nil. *)
Record OracleQueryChainCandidateSelector : Type := mkOracle {
  depth : Z;
  minResults : float64;
  bestRelRet : float64;
  prevRelRet : float64;
  bestRet : float64;
  prevRet : float64;
  qrels : QrelsFile;
  ss : StatisticsSource;
  seen : option (gmap Z LogicalTreeNode)
}.

Definition set_depth (oc : OracleQueryChainCandidateSelector) (v : Z) :=
  mkOracle v (minResults oc) (bestRelRet oc) (prevRelRet oc) (bestRet oc)
           (prevRet oc) (qrels oc) (ss oc) (seen oc).
Definition set_minResults (oc : OracleQueryChainCandidateSelector) (v : float64) :=
  mkOracle (depth oc) v (bestRelRet oc) (prevRelRet oc) (bestRet oc)
           (prevRet oc) (qrels oc) (ss oc) (seen oc).
Definition set_bestRelRet (oc : OracleQueryChainCandidateSelector) (v : float64) :=
  mkOracle (depth oc) (minResults oc) v (prevRelRet oc) (bestRet oc)
           (prevRet oc) (qrels oc) (ss oc) (seen oc).
Definition set_prevRelRet (oc : OracleQueryChainCandidateSelector) (v : float64) :=
  mkOracle (depth oc) (minResults oc) (bestRelRet oc) v (bestRet oc)
           (prevRet oc) (qrels oc) (ss oc) (seen oc).
Definition set_bestRet (oc : OracleQueryChainCandidateSelector) (v : float64) :=
  mkOracle (depth oc) (minResults oc) (bestRelRet oc) (prevRelRet oc) v
           (prevRet oc) (qrels oc) (ss oc) (seen oc).
Definition set_prevRet (oc : OracleQueryChainCandidateSelector) (v : float64) :=
  mkOracle (depth oc) (minResults oc) (bestRelRet oc) (prevRelRet oc) (bestRet oc)
           v (qrels oc) (ss oc) (seen oc).
Definition set_seen (oc : OracleQueryChainCandidateSelector)
    (v : option (gmap Z LogicalTreeNode)) :=
  mkOracle (depth oc) (minResults oc) (bestRelRet oc) (prevRelRet oc) (bestRet oc)
           (prevRet oc) (qrels oc) (ss oc) v.

(** The map behind [oc.seen] as [NewLogicalTree] receives it. *)
Definition seen_map (oc : OracleQueryChainCandidateSelector) : gmap Z LogicalTreeNode :=
  default ∅ (seen oc).

(** The evaluators [Select] asks for, in its order. *)
Definition oracle_evaluators : list Evaluator :=
  [RecallEvaluator; PrecisionEvaluator; NumRet; NumRel; NumRelRet].

(** What [Select] returns. *)
Definition selected : Type :=
  TransformedQuery * OracleQueryChainCandidateSelector * option error.

(** The variables the candidate loops of [Select] carry: the receiver
    copy [oc], the locals [bestRelRet], [bestRet] and the parameter
    [query]. *)
Record locals : Type := mkLocals {
  l_oc : OracleQueryChainCandidateSelector;
  l_bestRelRet : float64;
  l_bestRet : float64;
  l_query : TransformedQuery
}.

(** Body of [for _, applied := range queries]. *)
Definition visit (st : locals) (applied : CandidateQuery) : flow locals selected :=
  let query := l_query st in
  let oc := l_oc st in
  (* The new query. *)
  let nq := NewPipelineQuery (pqName (tqPipelineQuery query))
              (pqTopic (tqPipelineQuery query)) (cqQuery applied) in
  let '(tree, seen', err) := NewLogicalTree nq (ss oc) (seen_map oc) in
  let oc := set_seen oc (Some seen') in
  match err with
  | Some e => Exit (query, oc, Some e)
  | None =>
      let results := Results tree nq (pqName nq) in
      let evaluation := Evaluate oracle_evaluators results (qrels oc)
                          (pqTopic (tqPipelineQuery query)) in
      let numRelRet := index evaluation (Name NumRelRet) in
      let numRet := index evaluation (Name NumRet) in
      if fgt numRelRet fzero && fge numRelRet (l_bestRelRet st)
         && fle numRet (l_bestRet st) then
        let bestRelRet' := numRelRet in
        let bestRet' := numRet in
        let oc := set_bestRelRet oc bestRelRet' in
        let oc := set_bestRet oc bestRet' in
        let transformed := NewPipelineQuery (pqName (tqPipelineQuery query))
                             (pqTopic (tqPipelineQuery query)) (cqQuery applied) in
        Next (mkLocals oc bestRelRet' bestRet' (Append query transformed))
      else
        Next (mkLocals oc (l_bestRelRet st) (l_bestRet st) query)
  end.

(** Body of [for _, transformation := range transformations]. *)
Definition transform (zero : TransformedQuery) (st : locals)
    (transformation : Transformation) : flow locals selected :=
  let '(queries, err) := Apply transformation (pqQuery (tqPipelineQuery (l_query st))) in
  match err with
  | Some e => Exit (zero, l_oc st, Some e)
  | None => for_range visit queries st
  end.

(** The first lines of [Select]: bookkeeping on the receiver copy. *)
Definition enter (oc : OracleQueryChainCandidateSelector) :=
  let oc := set_depth oc (wrap_int (depth oc + 1)) in
  let oc := set_prevRelRet oc (bestRelRet oc) in
  let oc := set_prevRet oc (bestRet oc) in
  match seen oc with
  | None => set_seen oc (Some ∅)
  | Some _ => oc
  end.

(** [if oc.minResults == 0 { ... }]: getting the baseline. *)
Definition baseline (oc : OracleQueryChainCandidateSelector) (query : TransformedQuery)
    : flow OracleQueryChainCandidateSelector selected :=
  if feq (minResults oc) fzero then
    let '(tree, seen', err) := NewLogicalTree (tqPipelineQuery query) (ss oc) (seen_map oc) in
    let oc := set_seen oc (Some seen') in
    match err with
    | Some e => Exit (query, oc, Some e)
    | None =>
        let results := Results tree (tqPipelineQuery query)
                         (pqName (tqPipelineQuery query)) in
        let oc := set_minResults oc (of_Z (Z.of_nat (length results))) in
        let evaluation := Evaluate oracle_evaluators results (qrels oc)
                            (pqTopic (tqPipelineQuery query)) in
        (* the second [if err != nil] of the source cannot fire: err is nil here *)
        let oc := set_bestRelRet oc (index evaluation (Name NumRelRet)) in
        let oc := set_bestRet oc (index evaluation (Name NumRet)) in
        Next oc
    end
  else Next oc.

(** [Select] is a grid search for the best possible query
    transformation chain. The receiver is passed by value: [oc] is the
    callee's copy, and the state it returns is that copy. [zero] is
    [TransformedQuery{}]. *)
Definition Select (zero : TransformedQuery) (oc : OracleQueryChainCandidateSelector)
    (query : TransformedQuery) (transformations : list Transformation) : selected :=
  let oc := enter oc in
  match baseline oc query with
  | Exit r => r
  | Next oc =>
      let st := mkLocals oc (bestRelRet oc) (bestRet oc) query in
      (* Apply the transformations to all of the queries. *)
      match for_range (transform zero) transformations st with
      | Exit r => r
      | Next st => (l_query st, l_oc st, None)
      end
  end.

Definition StoppingCriteria (oc : OracleQueryChainCandidateSelector) : bool :=
  if (5 <=? depth oc) || (feq (bestRelRet oc) (bestRelRet oc) && feq (bestRet oc) (prevRet oc))
  then true
  else false.

Definition NewOracleQueryChainCandidateSelector (source : StatisticsSource)
    (file : QrelsFile) : OracleQueryChainCandidateSelector :=
  {| depth := 0; minResults := fzero;
     bestRelRet := fminus1; prevRelRet := fzero;
     bestRet := fminus1; prevRet := fzero;
     qrels := file; ss := source; seen := None |}.

(** [QueryChain] and its [Execute], which threads the selector through the
    rounds: the state [Select] returns is the one asked whether to stop and
    the one called next. A round is one pass of [for !stop]; [None] means
    the rounds given were not enough. *)
Record QueryChain : Type := mkQueryChain {
  Transformations : list Transformation;
  CandidateSelector : OracleQueryChainCandidateSelector
}.

Fixpoint rounds (zero : TransformedQuery) (transformations : list Transformation)
    (fuel : nat) (tq : TransformedQuery) (sel : OracleQueryChainCandidateSelector)
    (stop : bool) : option (TransformedQuery * option error) :=
  if stop then Some (tq, None)
  else
    match fuel with
    | O => None
    | S fuel' =>
        let '(tq', sel', err) := Select zero sel tq transformations in
        match err with
        | Some e => Some (zero, Some e)
        | None => rounds zero transformations fuel' tq' sel' (StoppingCriteria sel')
        end
    end.

Definition Execute (zero : TransformedQuery) (qc : QueryChain) (query : PipelineQuery)
    (fuel : nat) : option (TransformedQuery * option error) :=
  let stop := StoppingCriteria (CandidateSelector qc) in
  let tq := mkTransformedQuery [] query in
  rounds zero (Transformations qc) fuel tq (CandidateSelector qc) stop.

(** *** Notions used to state properties of the selector *)

(** The bookkeeping one call of [Select] does, between the state [oc] the
    caller holds and the state [oc'] handed back. *)
Definition bookkept (oc oc' : OracleQueryChainCandidateSelector) : Prop :=
  depth oc' = wrap_int (depth oc + 1) ∧
  prevRelRet oc' = bestRelRet oc ∧
  prevRet oc' = bestRet oc ∧
  qrels oc' = qrels oc ∧
  ss oc' = ss oc.

(** [new] is not below [old]: it is the same value, or [old <= new]. *)
Definition not_below (old new : float64) : Prop := new = old ∨ fle old new = true.
(** [new] is not above [old]: it is the same value, or [new <= old]. *)
Definition not_above (old new : float64) : Prop := new = old ∨ fle new old = true.

(** The state [oc'] has not regressed from the best values [b0], [r0] and
    keeps the baseline size [m0]. *)
Definition kept_up (b0 r0 m0 : float64) (oc' : OracleQueryChainCandidateSelector) : Prop :=
  not_below b0 (bestRelRet oc') ∧ not_above r0 (bestRet oc') ∧ minResults oc' = m0.

(** The locals [bestRelRet], [bestRet] of the candidate loops mirror the
    fields of [oc]. *)
Definition mirrored (st : locals) : Prop :=
  l_bestRelRet st = bestRelRet (l_oc st) ∧ l_bestRet st = bestRet (l_oc st).

(** The scores the candidate loop reads for the candidate [applied] in
    loop state [st], once its tree is there. *)
Definition candidate_query (st : locals) (applied : CandidateQuery) : PipelineQuery :=
  NewPipelineQuery (pqName (tqPipelineQuery (l_query st)))
                   (pqTopic (tqPipelineQuery (l_query st))) (cqQuery applied).


End oracle.
End Rewrite.


(** ** Package formulation: the objective formulator *)

Module Formulation.
Import Eval.

(** [strconv.Atoi]: an optional sign, then decimal digits only, and a value
    that fits Go's 64-bit [int]; anything else is an error ([None]). *)
Definition digit_of (c : ascii) : option Z :=
  let n := Z.of_N (Ascii.N_of_ascii c) in
  if (48 <=? n) && (n <=? 57) then Some (n - 48) else None.

Fixpoint digits_of (s : string) (acc : Z) : option Z :=
  match s with
  | EmptyString => Some acc
  | String c s' =>
      match digit_of c with
      | Some d => digits_of s' (10 * acc + d)
      | None => None
      end
  end.

Definition Atoi (s : string) : option Z :=
  let '(neg, body) :=
    match s with
    | String "-"%char s' => (true, s')
    | String "+"%char s' => (false, s')
    | _ => (false, s)
    end in
  match body with
  | EmptyString => None
  | _ =>
      match digits_of body 0 with
      | Some v =>
          let v := if neg : bool then - v else v in
          if (- 2 ^ 63 <=? v) && (v <? 2 ^ 63) then Some v else None
      | None => None
      end
  end.

(** [Data] and [SupplementalData]: extra data that may be output by the
    formulation process. *)
Record Data (DataMarshaler : Type) : Type := mkData {
  dName : string;
  dValue : DataMarshaler
}.
Arguments mkData {DataMarshaler} dName dValue.

Record SupplementalData (DataMarshaler : Type) : Type := mkSupplementalData {
  sName : string;
  sData : list (Data DataMarshaler)
}.
Arguments mkSupplementalData {DataMarshaler} sName sData.

Section objective.
(** Types of other packages: queries, fetched documents, analysed terms,
    the background collection, the statistics source, marshalled data. *)
Context {CQR Documents Terms BackgroundCollection EntrezStatisticsSource DataMarshaler : Type}.

(** [ObjectiveFormulator] formulates queries according to the objective
    approach. [splitter] is the interface's [Split], [analyser] and the
    [postProcessing] entries are function values. *)
Record ObjectiveFormulator : Type := mkObjectiveFormulator {
  seed : Z;
  Folder : string;
  Pubdates : string;
  SemTypes : string;
  MetaMapURL : string;
  query : string * string * CQR;
  s : EntrezStatisticsSource;
  qrels : gmap string Qrel;
  MeSHK : list Z;
  DevK : list float64;
  PopK : list float64;
  population : BackgroundCollection;
  splitter : Documents → Documents * Documents * Documents;
  analyser : Documents → Terms * option error;
  postProcessing : list (CQR → CQR * option error)
}.

(** Functions of the package that are not among the sources. *)
Context (fetchDocuments : list Z → EntrezStatisticsSource → Documents * option error).
Context (derive : ObjectiveFormulator → Terms → Documents → Documents →
                  BackgroundCollection → CQR * CQR * option error).
Context (MakeQrels : Documents → DataMarshaler).

(** Body of [for _, rel := range o.qrels]: the loop state is
    [(docs, nonrel)]; a document id that is not a number panics. *)
Definition identify (st : list Z * list Qrel) (rel : Qrel)
    : flow (list Z * list Qrel) string :=
  let '(docs, nonrel) := st in
  if 0 <? qScore rel then
    match Atoi (qDocId rel) with
    | None => Exit ("strconv.Atoi: parsing " +:+ qDocId rel)
    | Some v => Next (docs ++ [v], nonrel)
    end
  else Next (docs, nonrel ++ [rel]).

(** Body of [for _, postProcessor := range o.postProcessing]. *)
Definition post_process (st : CQR * CQR) (postProcessor : CQR → CQR * option error)
    : flow (CQR * CQR) error :=
  let '(q1, q2) := st in
  let '(q1, err) := postProcessor q1 in
  match err with
  | Some e => Exit e
  | None =>
      let '(q2, err) := postProcessor q2 in
      match err with
      | Some e => Exit e
      | None => Next (q1, q2)
      end
  end.

Definition not_enough : error :=
  ErrOther "not enough relevant studies (minimmum 50)".

(** [Formulate] returns two queries: one with MeSH terms and one without.
    It also returns the set of unseen documents for evaluation later.
    Go ranges over the map [o.qrels] in an unspecified order; the order of
    [map_to_list] stands for it. *)
Definition Formulate (o : ObjectiveFormulator)
    : outcome (list CQR * list (SupplementalData DataMarshaler) * option error) :=
  (* Identify the relevant studies using relevance assessments. *)
  match for_range identify (snd <$> map_to_list (qrels o)) ([], []) with
  | Exit msg => Panics msg
  | Next (docs, nonrel) =>
      if (length docs <=? 50)%nat then
        Returns ([], [], Some not_enough)
      else
        (* Fetch those relevant documents. *)
        match fetchDocuments docs (s o) with
        | (_, Some _) => Panics "fetchDocuments"
        | (test, None) =>
            (* Split the 'test' set into dev, val, and unseen. *)
            let '(dev, val, unseen) := splitter o test in
            (* Perform 'term frequency analysis' on the development set. *)
            match analyser o dev with
            | (_, Some _) => Panics "analyser"
            | (devTerms, None) =>
                let '(q1, q2, _) := derive o devTerms dev val (population o) in
                (* Post-Processing. *)
                match for_range post_process (postProcessing o) (q1, q2) with
                | Exit e => Returns ([], [], Some e)
                | Next (q1, q2) =>
                    let sup := mkSupplementalData "objective"
                                 [mkData "unseen.qrels" (MakeQrels unseen)] in
                    Returns ([q1; q2], [sup], None)
                end
            end
        end
  end.

End objective.
End Formulation.

(** ** Package learning: the query chain and the ranking file *)

Module Learning.

(** [bufio.NewScanner] over a file held in memory, read by
    [for scanner.Scan()]: the scanner splits the data with
    [bufio.ScanLines] and hands out one line per call of [Scan]. *)
Definition LF : ascii := Eval vm_compute in Ascii.ascii_of_nat 10.
Definition CR : ascii := Eval vm_compute in Ascii.ascii_of_nat 13.

(** [bufio.MaxScanTokenSize], the size the scanner's buffer grows to. *)
Definition MaxScanTokenSize : Z := 64 * 1024.

(** [dropCR] drops a terminal carriage return from the data. *)
Fixpoint dropCR (line : string) : string :=
  match line with
  | EmptyString => EmptyString
  | String c EmptyString => if decide (c = CR) then EmptyString else line
  | String c rest => String c (dropCR rest)
  end.

(** The lines of the data as the split function cuts them: each ends
    before a line feed, or at the end of the data when not empty there. *)
Fixpoint split_lines (data : string) : list string :=
  match data with
  | EmptyString => []
  | String c rest =>
      if decide (c = LF) then EmptyString :: split_lines rest
      else
        match split_lines rest with
        | [] => [String c EmptyString]
        | line :: more => String c line :: more
        end
  end.

(** A line is found when it and its line feed fit the buffer, or, for a
    last line without line feed, when it leaves room in the buffer for the
    read that meets the end of the data: in both cases when it is shorter
    than [MaxScanTokenSize]. *)
Definition fits (line : string) : bool :=
  Z.of_nat (String.length line) <? MaxScanTokenSize.

(** The lines [Scan] hands out, each through [dropCR]. At a line that
    does not fit, [Scan] returns false with [ErrTooLong] and the loop is
    over; [getRanking] never looks at [scanner.Err()]. *)
Fixpoint Scan (lines : list string) : list string :=
  match lines with
  | [] => []
  | line :: more => if fits line then dropCR line :: Scan more else []
  end.

Definition ScanLines (data : string) : list string := Scan (split_lines data).

(** [sort.Slice(ranks, less)], as the insertion sort its implementation
    runs on short slices: each element in turn moves left past every
    neighbour it is [less] than. [rp] is the sorted prefix, last element
    first. *)
Fixpoint move_left {A : Type} (less : A → A → bool) (x : A) (rp : list A) : list A :=
  match rp with
  | [] => [x]
  | y :: rp' => if less x y then y :: move_left less x rp' else x :: rp
  end.

Definition sort_Slice {A : Type} (less : A → A → bool) (l : list A) : list A :=
  reverse (foldl (λ rp x, move_left less x rp) [] l).

Section chain.
(** Types of other packages, and the zero value [CandidateQuery{}]. *)
Context {CandidateQuery Query Transformation Measurement
         StatisticsSource MeasurementExecutor : Type}.
Context (zeroCandidateQuery : CandidateQuery).

(** [QueryChainCandidateSelector] describes how transformed queries are
    chosen from the set of transformations. [S] is the type of selector
    values; [Select] hands back the selector to go on with. (The methods
    [Train] and [Output] play no part in [Execute].) *)
Class QueryChainCandidateSelector (S : Type) : Type := {
  Select : S → CandidateQuery → list CandidateQuery → CandidateQuery * S * option error;
  StoppingCriteria : S → bool
}.

(** [QueryChain], with the fields [Execute] reads. *)
Record QueryChain (S : Type) : Type := mkQueryChain {
  Transformations : list Transformation;
  Measurements : list Measurement;
  CandidateSelector : S;
  qcStatisticsSource : StatisticsSource;
  qcMeasurementExecutor : MeasurementExecutor
}.
Arguments Transformations {S} _.
Arguments Measurements {S} _.
Arguments CandidateSelector {S} _.
Arguments qcStatisticsSource {S} _.
Arguments qcMeasurementExecutor {S} _.

(** Functions of the package that are not among the sources:
    [NewCandidateQuery(q.Query, q.Topic, nil)] and [Variations]. *)
Context (NewCandidateQuery : Query → CandidateQuery).
Context (Variations : CandidateQuery → StatisticsSource → MeasurementExecutor →
                      list Measurement → list Transformation →
                      list CandidateQuery * option error).

(** The loop [for !stop { ... }] of [Execute]. Nothing bounds the number
    of rounds in the source, so the model counts them down from [fuel];
    [None] means the rounds given were not enough. The counter [d] is only
    logged. *)
Fixpoint chain_loop {S : Type} `{QueryChainCandidateSelector S} (qc : QueryChain S)
    (fuel : nat) (cq : CandidateQuery) (sel : S) (stop : bool)
    : option (CandidateQuery * option error) :=
  if stop then Some (cq, None)
  else
    match fuel with
    | O => None
    | Datatypes.S fuel' =>
        let '(candidates, err) :=
          Variations cq (qcStatisticsSource qc) (qcMeasurementExecutor qc)
                     (Measurements qc) (Transformations qc) in
        match err with
        | Some e => Some (zeroCandidateQuery, Some e)
        | None =>
            if decide (length candidates = 0%nat) then Some (cq, None)
            else
              let candidates := candidates ++ [cq] in
              let '(cq', sel', err) := Select sel cq candidates in
              match err with
              | Some e =>
                  if decide (e ≠ ErrCacheMiss) then Some (zeroCandidateQuery, Some e)
                  else chain_loop qc fuel' cq' sel' (StoppingCriteria sel')
              | None => chain_loop qc fuel' cq' sel' (StoppingCriteria sel')
              end
        end
    end.

(** [Execute] executes a query chain in full. At each "transition point"
    in the chain, the candidate selector is queried in order to see if the
    chain should continue or not. *)
Definition Execute {S : Type} `{QueryChainCandidateSelector S} (qc : QueryChain S)
    (q : Query) (fuel : nat) : option (CandidateQuery * option error) :=
  let cq := NewCandidateQuery q in
  let sel := CandidateSelector qc in
  let stop := StoppingCriteria sel in
  chain_loop qc fuel cq sel stop.

Record ranking : Type := mkRanking {
  rank : float64;
  rquery : CandidateQuery
}.

(** Outside world of [getRanking]: [ioutil.ReadFile] and
    [strconv.ParseFloat(text, 64)]. *)
Context (ReadFile : string → string * option error).
Context (ParseFloat : string → float64 + error).

(** Body of [for scanner.Scan()]: the loop state is [(i, ranks)]. Writing
    [ranks[i]] or reading [candidates[i]] out of range panics. *)
Definition read_rank (candidates : list CandidateQuery) (st : nat * list ranking)
    (text : string) : flow (nat * list ranking) (outcome (CandidateQuery * option error)) :=
  let '(i, ranks) := st in
  match ParseFloat text with
  | inr e => Exit (Returns (zeroCandidateQuery, Some e))
  | inl r =>
      match candidates !! i with
      | Some c =>
          if decide (i < length ranks)%nat
          then Next (Datatypes.S i, <[i := mkRanking r c]> ranks)
          else Exit (Panics "index out of range")
      | None => Exit (Panics "index out of range")
      end
  end.

(** [getRanking] pairs the scores of a ranking file with the candidates
    and gives the candidate ranked first. The first component of the
    result lists the files the call has read. *)
Definition getRanking (filename : string) (candidates : list CandidateQuery)
    : list string * outcome (CandidateQuery * option error) :=
  if decide (length candidates = 0%nat) then ([], Returns (zeroCandidateQuery, None))
  else
    let '(b, err) := ReadFile filename in
    match err with
    | Some e => ([filename], Returns (zeroCandidateQuery, Some e))
    | None =>
        let ranks := replicate (length candidates) (mkRanking fzero zeroCandidateQuery) in
        match for_range (read_rank candidates) (ScanLines b) (0%nat, ranks) with
        | Exit r => ([filename], r)
        | Next (_, ranks) =>
            let ranks := sort_Slice (λ ri rj, fgt (rank ri) (rank rj)) ranks in
            match ranks with
            | [] => ([filename], Returns (zeroCandidateQuery, None))
            | r0 :: _ => ([filename], Returns (rquery r0, None))
            end
        end
    end.

End chain.

Arguments Transformations {_ _ _ _ S} _.
Arguments Measurements {_ _ _ _ S} _.
Arguments CandidateSelector {_ _ _ _ S} _.
Arguments qcStatisticsSource {_ _ _ _ S} _.
Arguments qcMeasurementExecutor {_ _ _ _ S} _.
End Learning.


(** ** Test doubles

    Small instances of the collaborators, to run the definitions above on
    concrete inputs. *)

Module Scenario.
Import Eval.

(** *** A five-document collection judged for topic T1 *)

Definition judgment (id : string) (grade : Z) : string * Qrel :=
  (id, mkQrel "T1" "0" id grade).

Definition judged : QrelsFile :=
  mkQrelsFile {[ "T1" := list_to_map [judgment "1" 1; judgment "2" 1; judgment "3" 1;
                                       judgment "4" 0; judgment "5" 0] ]}.

Definition doc (id : string) : Result := mkResult "T1" "0" id 0 fzero "run".

Definition is_relevant (q : gmap string Qrel) (r : Result) : bool :=
  match q !! DocId r with
  | Some j => 0 <? qScore j
  | None => false
  end.

Definition count_ret (results : ResultList) (_ : gmap string Qrel) : float64 :=
  of_Z (Z.of_nat (length results)).
Definition count_rel_ret (results : ResultList) (q : gmap string Qrel) : float64 :=
  of_Z (Z.of_nat (length (List.filter (is_relevant q) results))).
Definition count_rel (_ : ResultList) (q : gmap string Qrel) : float64 :=
  of_Z (Z.of_nat (length (List.filter (λ kv, 0 <? qScore kv.2) (map_to_list q)))).

Definition num_ret : Evaluator := mkEvaluator "NumRet" count_ret.
Definition num_rel : Evaluator := mkEvaluator "NumRel" count_rel.
Definition num_rel_ret : Evaluator := mkEvaluator "NumRelRet" count_rel_ret.
Definition precision : Evaluator :=
  mkEvaluator "Precision" (λ results q, SFdiv 53 1024 (count_rel_ret results q) (count_ret results q)).
Definition recall : Evaluator :=
  mkEvaluator "Recall" (λ results q, SFdiv 53 1024 (count_rel_ret results q) (count_rel results q)).

(** Queries are numbered; the documents each retrieves are tabulated, and
    a query outside the table fails at the statistics source. *)
Definition postings (q : nat) : option (list string) :=
  match q with
  | 0%nat => Some ["1"; "4"; "5"]
  | 1%nat => Some ["1"; "2"; "4"]
  | 2%nat => Some ["1"; "2"; "3"]
  | 3%nat => Some ["1"; "4"]
  | _ => None
  end.

#[export] Instance collection : Rewrite.Combinator := {|
  Rewrite.CQR := nat;
  Rewrite.StatisticsSource := unit;
  Rewrite.LogicalTree := list string;
  Rewrite.LogicalTreeNode := unit;
  Rewrite.NewLogicalTree := λ nq _ seen,
    match postings nq.2 with
    | Some ds => (ds, seen, None)
    | None => ([], seen, Some (ErrOther "retrieval failed"))
    end;
  Rewrite.Results := λ tree _ _, doc <$> tree;
  Rewrite.RecallEvaluator := recall;
  Rewrite.PrecisionEvaluator := precision;
  Rewrite.NumRet := num_ret;
  Rewrite.NumRel := num_rel;
  Rewrite.NumRelRet := num_rel_ret
|}.

Definition candidate (q : nat) : @Rewrite.CandidateQuery collection :=
  @Rewrite.mkCandidateQuery collection q.
Definition numbered (q : nat) : @Rewrite.PipelineQuery collection := ("q", "T1", q).

Definition rewrites (name : string) (table : nat → list nat) : Rewrite.Transformation :=
  Rewrite.mkTransformation name (λ q, (Rewrite.mkCandidateQuery <$> table q, None)).

(** 0 is rewritten to 1, and 1 to 2. *)
Definition narrowing : Rewrite.Transformation :=
  rewrites "narrowing" (λ q, match q with 0%nat => [1%nat] | 1%nat => [2%nat] | _ => [] end).
(** 0 is rewritten to 1 and to 3. *)
Definition two_way : Rewrite.Transformation :=
  rewrites "two_way" (λ q, match q with 0%nat => [1%nat; 3%nat] | _ => [] end).
(** 0 is rewritten to 9, which the statistics source cannot resolve, and to 1. *)
Definition failing_first : Rewrite.Transformation :=
  rewrites "failing_first" (λ q, match q with 0%nat => [9%nat; 1%nat] | _ => [] end).

Definition no_query : Rewrite.TransformedQuery :=
  Rewrite.mkTransformedQuery [] (EmptyString, EmptyString, 0%nat).
Definition seed_query : Rewrite.TransformedQuery :=
  Rewrite.mkTransformedQuery [] (numbered 0).
Definition fresh : Rewrite.OracleQueryChainCandidateSelector :=
  Rewrite.NewOracleQueryChainCandidateSelector tt judged.

(** The state once the baseline is taken, and the candidate loop's
    variables at its start. *)
Definition seeded : Rewrite.OracleQueryChainCandidateSelector :=
  (Rewrite.Select no_query fresh seed_query []).1.2.

(** The state after one and after two rounds of narrowing. *)
Definition round1 : Rewrite.selected := Rewrite.Select no_query fresh seed_query [narrowing].
Definition round2 : Rewrite.selected := Rewrite.Select no_query round1.1.2 round1.1.1 [narrowing].

(** *** Judgments with [n] relevant studies, numbered from 1 *)

Definition relevant_studies (n : nat) : gmap string Qrel :=
  list_to_map ((λ i : nat, (pretty i, mkQrel "T1" "0" (pretty i) 1)) <$> seq 1 n).

Definition formulator (n : nat)
    : @Formulation.ObjectiveFormulator nat (list Z) unit unit unit :=
  Formulation.mkObjectiveFormulator 0 "folder" "dates" "types" "url" ("q", "T1", 0%nat) tt
    (relevant_studies n) [20] [] [] tt (λ d, (d, [], [])) (λ _, (tt, None)) [].

Definition formulate (n : nat) :=
  Formulation.Formulate (DataMarshaler := list Z)
    (λ docs _, (docs, None)) (λ _ _ _ _ _, (1%nat, 2%nat, None)) (λ d, d) (formulator n).

(** *** A selector that misses the cache once, and a ranking file *)

#[export] Instance missing_once : Learning.QueryChainCandidateSelector (CandidateQuery := nat) nat := {|
  Learning.Select := λ s cq candidates,
    (length candidates, S s, if decide (s = 0%nat) then Some ErrCacheMiss else None);
  Learning.StoppingCriteria := λ s, bool_decide (2 ≤ s)%nat
|}.

Definition chain : Learning.QueryChain (Transformation := unit) (Measurement := unit) nat :=
  Learning.mkQueryChain nat [] [] 0%nat tt tt.

Definition one_variation (cq : nat) (_ _ : unit) (_ _ : list unit) : list nat * option error :=
  ([S cq], None).

Definition ranks_file : string :=
  "1" +:+ String Learning.LF ("3" +:+ String Learning.LF ("2" +:+ String Learning.LF EmptyString)).

Definition disk (filename : string) : string * option error :=
  if decide (filename = "ranks") then (ranks_file, None)
  else (EmptyString, Some (ErrOther "no such file")).

(** A second disk, whose ranking file has a malformed second line. *)
Definition damaged_disk (filename : string) : string * option error :=
  if decide (filename = "ranks")
  then ("1" +:+ String Learning.LF ("x3" +:+ String Learning.LF ("2" +:+ String Learning.LF EmptyString)),
        None)
  else (EmptyString, Some (ErrOther "no such file")).

Definition parse_number (text : string) : float64 + error :=
  match Formulation.Atoi text with
  | Some z => inl (of_Z z)
  | None => inr (ErrOther "invalid syntax")
  end.

End Scenario.

(** ** Package rewrite: the features of the oracle selector *)

Module RewriteFeatures.
Import Eval Rewrite.

Section features.
Context `{Combinator}.
Context {FeatureFamily : Type}.

(** [oc.ss.Execute(nq, oc.ss.SearchOptions())]: running a query at the
    statistics source, with the source's own search options. *)
Context (ssExecute : StatisticsSource → PipelineQuery → ResultList * option error).

(** A candidate with the two fields [Features] reads, the transformation
    that produces such candidates, and the feature learnt from one. *)
Record CandidateQuery : Type := mkCandidateQuery {
  Query : CQR;
  FeatureFamily_ : FeatureFamily
}.

Record Transformation : Type := mkTransformation {
  tName : string;
  Apply : CQR → list CandidateQuery * option error
}.

Record LearntFeature : Type := mkLearntFeature {
  lfFeatureFamily : FeatureFamily;
  lfScore : float64
}.

(** What [Features] returns: the named results [lf] and [err]. *)
Definition featured : Type := list LearntFeature * option error.

(** Body of [for _, candidate := range cqs]. A candidate the statistics
    source fails on is passed over ([continue]). *)
Definition score_candidate (oc : OracleQueryChainCandidateSelector)
    (query bestQuery : PipelineQuery) (lf : list LearntFeature)
    (candidate : CandidateQuery) : flow (list LearntFeature) featured :=
  let nq := NewPipelineQuery (pqName query) (pqTopic query) (Query candidate) in
  (* Now, using an oracle heuristic, get the precision and recall for all
     of the transformations. *)
  let '(results, err) := ssExecute (ss oc) nq in
  match err with
  | Some _ => Next lf
  | None =>
      let evaluation := Evaluate [PrecisionEvaluator] results (qrels oc) (pqTopic bestQuery) in
      let precision := index evaluation (Name PrecisionEvaluator) in
      Next (lf ++ [mkLearntFeature (FeatureFamily_ candidate) precision])
  end.

(** Body of [for _, transformation := range transformations]. *)
Definition apply_transformation (oc : OracleQueryChainCandidateSelector)
    (query bestQuery : PipelineQuery) (lf : list LearntFeature)
    (transformation : Transformation) : flow (list LearntFeature) featured :=
  let '(cqs, err) := Apply transformation (pqQuery bestQuery) in
  match err with
  | Some e => Exit ([], Some e)
  | None => for_range (score_candidate oc query bestQuery) cqs lf
  end.

(** [Features]: five passes, [for i := 0; i < 5; i++], each applying the
    transformations to all of the queries. *)
Definition Features (oc : OracleQueryChainCandidateSelector) (query : PipelineQuery)
    (transformations : list Transformation) : featured :=
  let bestQuery := query in
  match for_range (λ lf (_ : nat),
                     for_range (apply_transformation oc query bestQuery) transformations lf)
                  (seq 0 5) [] with
  | Exit r => r
  | Next lf => (lf, None)
  end.

(** *** Notions used to state properties of [Features] *)

(** The feature of one candidate: its family with the precision of what
    the statistics source retrieves for it, if the source answers. *)
Definition feature_of (oc : OracleQueryChainCandidateSelector) (query : PipelineQuery)
    (candidate : CandidateQuery) : option LearntFeature :=
  let nq := NewPipelineQuery (pqName query) (pqTopic query) (Query candidate) in
  match ssExecute (ss oc) nq with
  | (_, Some _) => None
  | (results, None) =>
      Some (mkLearntFeature (FeatureFamily_ candidate)
              (score PrecisionEvaluator results
                 (default ∅ (Qrels (qrels oc) !! pqTopic query))))
  end.

(** The features of one pass over the transformations. *)
Definition one_pass (oc : OracleQueryChainCandidateSelector) (query : PipelineQuery)
    (transformations : list Transformation) : list LearntFeature :=
  transformations ≫= λ transformation,
    omap (feature_of oc query) (Apply transformation (pqQuery query)).1.

End features.
End RewriteFeatures.

(** ** Package pipeline: building a pipeline from components *)

Module Pipeline.

Section pipeline.
(** Types of other packages. *)
Context {query_QueriesSource stats_StatisticsSource preprocess_QueryProcessor
         preprocess_BooleanTransformation preprocess_ElasticsearchTransformation
         analysis_Measurement output_MeasurementFormatter eval_Evaluator
         output_EvaluationFormatter trecresults_QrelsFile rewrite_QueryChain : Type}.
(** The zero values of the two struct types taken from other packages. *)
Context (zeroQrelsFile : trecresults_QrelsFile) (zeroQueryChain : rewrite_QueryChain).

(** [preprocess.QueryTransformations]. *)
Record QueryTransformations : Type := mkQueryTransformations {
  BooleanTransformations : list preprocess_BooleanTransformation;
  ElasticsearchTransformations : list preprocess_ElasticsearchTransformation
}.

(** [output.TrecResults]. *)
Record TrecResults : Type := mkTrecResults {
  Path : string
}.

Record EvaluationOutputFormat : Type := mkEvaluationOutputFormat {
  eofEvaluationFormatters : list output_EvaluationFormatter;
  EvaluationQrels : trecresults_QrelsFile
}.

(** [GroovePipeline] contains all the information for executing a
    pipeline for query analysis. A field of slice type is a list (nil is
    the empty list). The field [Preprocess] is [gpPreprocess] here, the
    name being taken by the function. *)
Record GroovePipeline : Type := mkGroovePipeline {
  QueriesSource : query_QueriesSource;
  StatisticsSource : stats_StatisticsSource;
  gpPreprocess : list preprocess_QueryProcessor;
  Transformations : QueryTransformations;
  Measurements : list analysis_Measurement;
  MeasurementFormatters : list output_MeasurementFormatter;
  Evaluations : list eval_Evaluator;
  EvaluationFormatters : EvaluationOutputFormat;
  OutputTrec : TrecResults;
  QueryChain : rewrite_QueryChain
}.

(** The value a component returns is an [interface{}]: a value together
    with its dynamic type, which the type switch of [NewGroovePipeline]
    looks at. *)
Inductive dynamic : Type :=
| QueryProcessors (v : list preprocess_QueryProcessor)
| MeasurementList (v : list analysis_Measurement)
| EvaluatorList (v : list eval_Evaluator)
| MeasurementFormatterList (v : list output_MeasurementFormatter)
| TrecResultsValue (v : TrecResults)
| EvaluationOutputFormatValue (v : EvaluationOutputFormat)
| QueryTransformationsValue (v : QueryTransformations)
| OtherValue.

(** A component is a [func() interface{}]. *)
Definition component : Type := unit → dynamic.

(** [Preprocess] adds preprocessors to the pipeline. *)
Definition Preprocess (processor : list preprocess_QueryProcessor) : component :=
  λ _, QueryProcessors processor.

(** [Measurement] adds measurements to the pipeline. *)
Definition Measurement (measurements : list analysis_Measurement) : component :=
  λ _, MeasurementList measurements.

(** [Evaluation] adds evaluation measures to the pipeline. *)
Definition Evaluation (measures : list eval_Evaluator) : component :=
  λ _, EvaluatorList measures.

(** [MeasurementOutput] adds outputs to the pipeline. *)
Definition MeasurementOutput (formatter : list output_MeasurementFormatter) : component :=
  λ _, MeasurementFormatterList formatter.

(** [TrecOutput] configures trec output. *)
Definition TrecOutput (path : string) : component :=
  λ _, TrecResultsValue (mkTrecResults path).

(** [EvaluationOutput] reads and parses the judgments at once, panicking
    when that fails, and gives the component that sets them with the
    formatters. *)
Definition EvaluationOutput (ReadFile : string → string * option error)
    (QrelsFromReader : string → trecresults_QrelsFile * option error)
    (qrels : string) (formatters : list output_EvaluationFormatter) : outcome component :=
  match ReadFile qrels with
  | (_, Some _) => Panics "ReadFile"
  | (b, None) =>
      match QrelsFromReader b with
      | (_, Some _) => Panics "QrelsFromReader"
      | (f, None) =>
          Returns (λ _, EvaluationOutputFormatValue (mkEvaluationOutputFormat formatters f))
      end
  end.

(** Body of [for _, component := range components]: the type switch. *)
Definition install (gp : GroovePipeline) (component : component) : GroovePipeline :=
  let val := component tt in
  match val with
  | QueryProcessors v =>
      mkGroovePipeline (QueriesSource gp) (StatisticsSource gp) v (Transformations gp)
        (Measurements gp) (MeasurementFormatters gp) (Evaluations gp)
        (EvaluationFormatters gp) (OutputTrec gp) (QueryChain gp)
  | MeasurementList v =>
      mkGroovePipeline (QueriesSource gp) (StatisticsSource gp) (gpPreprocess gp)
        (Transformations gp) v (MeasurementFormatters gp) (Evaluations gp)
        (EvaluationFormatters gp) (OutputTrec gp) (QueryChain gp)
  | MeasurementFormatterList v =>
      mkGroovePipeline (QueriesSource gp) (StatisticsSource gp) (gpPreprocess gp)
        (Transformations gp) (Measurements gp) v (Evaluations gp)
        (EvaluationFormatters gp) (OutputTrec gp) (QueryChain gp)
  | QueryTransformationsValue v =>
      mkGroovePipeline (QueriesSource gp) (StatisticsSource gp) (gpPreprocess gp)
        v (Measurements gp) (MeasurementFormatters gp) (Evaluations gp)
        (EvaluationFormatters gp) (OutputTrec gp) (QueryChain gp)
  | _ => gp
  end.

(** [NewGroovePipeline] creates a new groove pipeline. The query source
    and statistics source are required. Additional components are provided
    via the optional functional arguments. *)
Definition NewGroovePipeline (qs : query_QueriesSource) (ss : stats_StatisticsSource)
    (components : list component) : GroovePipeline :=
  let gp := mkGroovePipeline qs ss [] (mkQueryTransformations [] []) [] [] []
              (mkEvaluationOutputFormat [] zeroQrelsFile) (mkTrecResults EmptyString)
              zeroQueryChain in
  foldl install gp components.

End pipeline.
End Pipeline.

(** ** Arithmetic of float64 *)

Module Float64Arith.

(** Go's arithmetic on float64: IEEE 754 binary64, rounding to nearest
    even. *)
Definition fadd (a b : float64) : float64 := SFadd 53 1024 a b.
Definition fsub (a b : float64) : float64 := SFsub 53 1024 a b.
Definition fmul (a b : float64) : float64 := SFmul 53 1024 a b.
Definition fdiv (a b : float64) : float64 := SFdiv 53 1024 a b.
Definition fone : float64 := Eval vm_compute in of_Z 1.

End Float64Arith.

(** ** Package preqpp: average inverse collection term frequency *)

Module Preqpp.
Import Float64Arith.

(** The two lookups of [stats.StatisticsSource] the measurement makes. *)
Record StatisticsSource : Type := mkStatisticsSource {
  VocabularySize : string → float64 * option error;
  TotalTermFrequency : string → string → float64 * option error
}.

(** A call the measurement has made to the statistics source. *)
Inductive lookup : Type :=
| AskVocabularySize (field : string)
| AskTotalTermFrequency (term field : string).

Section ictf.
(** [analysis.QueryTerms], [analysis.QueryFields] and [math.Log2]. *)
Context {CQR : Type}.
Context (QueryTerms : CQR → list string) (QueryFields : CQR → list string).
Context (Log2 : float64 → float64).

Definition Name : string := "AvgICTF".

(** What [Execute] returns, after the calls it has made to the source. *)
Definition measured : Type := list lookup * (float64 * option error).

(** Body of [for _, term := range terms]; the loop state is the calls
    made so far and [sumICTF]. *)
Definition add_term (s : StatisticsSource) (field : string) (W : float64)
    (st : list lookup * float64) (term : string) : flow (list lookup * float64) measured :=
  let '(calls, sumICTF) := st in
  let '(tf, err) := TotalTermFrequency s term field in
  let calls := calls ++ [AskTotalTermFrequency term field] in
  match err with
  | Some e => Exit (calls, (fzero, Some e))
  | None => Next (calls, fadd sumICTF (fsub (Log2 W) (Log2 (fadd fone tf))))
  end.

(** Body of [for _, field := range fields]. *)
Definition add_field (s : StatisticsSource) (terms : list string)
    (st : list lookup * float64) (field : string) : flow (list lookup * float64) measured :=
  let '(calls, sumICTF) := st in
  let '(W, err) := VocabularySize s field in
  let calls := calls ++ [AskVocabularySize field] in
  match err with
  | Some e => Exit (calls, (fzero, Some e))
  | None => for_range (add_term s field W) terms (calls, sumICTF)
  end.

(** [AvgICTF] is similar to idf, however it attempts to take into account
    the term frequencies. [q] is the [Query] field of the pipeline query,
    the only one read. *)
Definition Execute (q : CQR) (s : StatisticsSource) : measured :=
  let terms := QueryTerms q in
  if decide (length terms = 0%nat) then ([], (fzero, None))
  else
    let sumICTF := fzero in
    let fields := QueryFields q in
    match for_range (add_field s terms) fields ([], sumICTF) with
    | Exit r => r
    | Next (calls, sumICTF) =>
        (calls, (fmul (fdiv fone (of_Z (Z.of_nat (length terms)))) sumICTF, None))
    end.

(** *** Notions used to state properties of [Execute] *)

(** The calls a run without failure makes, in order: for each field its
    vocabulary size, then the frequency of each term in it. *)
Definition schedule (terms fields : list string) : list lookup :=
  fields ≫= λ field, AskVocabularySize field :: ((λ term, AskTotalTermFrequency term field) <$> terms).

(** What the source answers to a call. *)
Definition answer (s : StatisticsSource) (c : lookup) : float64 * option error :=
  match c with
  | AskVocabularySize field => VocabularySize s field
  | AskTotalTermFrequency term field => TotalTermFrequency s term field
  end.

(** The sum a run without failure accumulates, field by field and term
    by term. *)
Definition ictf_term (s : StatisticsSource) (field : string) (sumICTF : float64)
    (term : string) : float64 :=
  fadd sumICTF (fsub (Log2 (VocabularySize s field).1)
                     (Log2 (fadd fone (TotalTermFrequency s term field).1))).

Definition ictf_sum (s : StatisticsSource) (terms fields : list string) (sumICTF : float64)
    : float64 :=
  foldl (λ sumICTF field, foldl (ictf_term s field) sumICTF terms) sumICTF fields.

(** The source answers the call without error. *)
Definition answered (s : StatisticsSource) (c : lookup) : Prop := (answer s c).2 = None.

End ictf.
End Preqpp.

(** ** Package query: loading protocols *)

Module QuerySource.

(** [os.FileInfo], as far as [Load] looks at it. *)
Record FileInfo : Type := mkFileInfo {
  IsDir : bool;
  Name : string
}.

(** [protocol] is a representation of a systematic review protocol in
    XML. *)
Record protocol : Type := mkProtocol {
  Objective : string;
  TypeOfStudy : string;
  Participants : string;
  IndexTests : string;
  TargetConditions : string;
  ReferenceStandards : string
}.

Section load.
Context {CQR StatisticsSource : Type}.

(** The outside world: [ioutil.ReadDir], [ioutil.ReadFile],
    [xml.Unmarshal] into a zero [protocol]. *)
Context (ReadDir : string → list FileInfo * option error).
Context (ReadFile : string → string * option error).
Context (Unmarshal : string → protocol * option error).

(** [pipeline.Query] and [pipeline.NewQuery]. *)
Definition Query : Type := string * string * CQR.
Definition NewQuery (name topic : string) (query : CQR) : Query := (name, topic, query).

(** What [Load] returns, after the files it has read. *)
Definition loaded : Type := list string * (list Query * option error).

(** Body of [for _, f := range files], which the two [Load] functions
    share word for word but for the constructor they build [c] with;
    [construct] is [c.Construct()] for that constructor. The loop state is
    the files read so far and [queries]. *)
Definition load_file (construct : string → string → string → string → list CQR * option error)
    (directory : string) (st : list string * list Query) (f : FileInfo)
    : flow (list string * list Query) loaded :=
  let '(reads, queries) := st in
  if IsDir f then Next st
  else if decide (String.length (Name f) = 0%nat) then Next st
  else
    let '(source, err) := ReadFile (directory +:+ "/" +:+ Name f) in
    let reads := reads ++ [directory +:+ "/" +:+ Name f] in
    match err with
    | Some e => Exit (reads, ([], Some e))
    | None =>
        let '(p, err) := Unmarshal source in
        match err with
        | Some e => Exit (reads, ([], Some e))
        | None =>
            let '(q, err) := construct (Objective p) (Participants p) (IndexTests p)
                               (TargetConditions p) in
            match err with
            | Some e => Exit (reads, ([], Some e))
            | None =>
                Next (reads, queries ++ ((λ query, NewQuery (Name f) (Name f) query) <$> q))
            end
        end
    end.

Definition load (construct : string → string → string → string → list CQR * option error)
    (directory : string) : loaded :=
  (* First, get a list of files in the directory. *)
  let '(files, err) := ReadDir directory in
  match err with
  | Some e => ([], ([], Some e))
  | None =>
      (* Next, read all files, generating queries for each file. *)
      match for_range (load_file construct directory) files ([], []) with
      | Exit r => r
      | Next (reads, queries) => (reads, (queries, None))
      end
  end.

(** [ProtocolQuerySource.Load], with
    [seed.NewProtocolConstructor(...).Construct()]. *)
Definition ProtocolQuerySource_Load
    (Construct : string → string → string → string → list CQR * option error)
    (directory : string) : loaded :=
  load Construct directory.

(** [QuickUMLSProtocolQuerySource] uses QuickUMLS to perform additional
    steps in the query formulation process. *)
Record QuickUMLSProtocolQuerySource : Type := mkQuickUMLSProtocolQuerySource {
  threshold : float64;
  url : string;
  ss : StatisticsSource
}.

(** [QuickUMLSProtocolQuerySource.Load], with
    [seed.NewQuickUMLSProtocolConstructor(..., q.url, q.threshold, q.ss).Construct()]. *)
Definition QuickUMLSProtocolQuerySource_Load
    (ConstructQuickUMLS : string → string → string → string → string → float64 →
                          StatisticsSource → list CQR * option error)
    (q : QuickUMLSProtocolQuerySource) (directory : string) : loaded :=
  load (λ objective participants indexTests targetConditions,
          ConstructQuickUMLS objective participants indexTests targetConditions
                             (url q) (threshold q) (ss q))
       directory.

Definition NewQuickUMLSProtocolQuerySource (url : string) (ss : StatisticsSource)
    (threshold : float64) : QuickUMLSProtocolQuerySource :=
  mkQuickUMLSProtocolQuerySource threshold url ss.

(** *** Notions used to state properties of [Load] *)

(** The entries [Load] opens: not a directory, and named. *)
Definition opened (f : FileInfo) : bool :=
  negb (IsDir f) && negb (String.length (Name f) =? 0)%nat.

(** The path [Load] reads the entry [f] of [directory] at. *)
Definition path_of (directory : string) (f : FileInfo) : string :=
  directory +:+ "/" +:+ Name f.

(** What an entry that is opened comes to: the queries made from its
    protocol, each named and given as topic the entry's name, or the error
    of the first of reading, unmarshalling and constructing that fails. *)
Definition entry (construct : string → string → string → string → list CQR * option error)
    (directory : string) (f : FileInfo) : list Query + error :=
  match ReadFile (path_of directory f) with
  | (_, Some e) => inr e
  | (source, None) =>
      match Unmarshal source with
      | (_, Some e) => inr e
      | (p, None) =>
          match construct (Objective p) (Participants p) (IndexTests p)
                          (TargetConditions p) with
          | (_, Some e) => inr e
          | (q, None) => inl (NewQuery (Name f) (Name f) <$> q)
          end
      end
  end.

(** The result [r] is that of loading the entries [files] of [directory].
    When every entry to open gives its queries, all of them are read, in
    order, and the queries are theirs, entry after entry. When an entry
    fails after the ones before it gave theirs, the files read are those up
    to and including it, its error is returned, and no query is. *)
Definition loads (construct : string → string → string → string → list CQR * option error)
    (directory : string) (files : list FileInfo) (r : loaded) : Prop :=
  (∀ made : list (list Query),
     Forall2 (λ f queries, entry construct directory f = inl queries)
             (filter (λ f, opened f) files) made →
     r = (path_of directory <$> filter (λ f, opened f) files, (concat made, None))) ∧
  (∀ (before : list FileInfo) (f : FileInfo) (later : list FileInfo) (e : error),
     filter (λ f, opened f) files = before ++ f :: later →
     Forall (λ f0, ∃ queries, entry construct directory f0 = inl queries) before →
     entry construct directory f = inr e →
     r = (path_of directory <$> before ++ [f], ([], Some e))).

End load.
End QuerySource.

(** ** Package formulation: the conceptual formulator and the options of
       the objective formulator *)

Module FormulationMethods.
Import Formulation Float64Arith.

Section conceptual.
(** Types of other packages: queries, entity expanders, keyword mappers,
    marshalled data. *)
Context {CQR EntityExpanderT KeywordMapperT DataMarshaler : Type}.

(** [ConceptualFormulator] formulates queries using the title or string of
    a systematic review. [LogicComposer] and [EntityExtractor] are the
    methods [Compose] and [Extract] of the embedded interfaces;
    [EntityExpander] is [None] when nil. *)
Record ConceptualFormulator : Type := mkConceptualFormulator {
  title : string;
  topic : string;
  LogicComposer : string → CQR * option error;
  EntityExtractor : CQR → CQR * option error;
  EntityExpander : option EntityExpanderT;
  KeywordMapper : KeywordMapperT;
  cPostProcessing : list (CQR → CQR * option error)
}.

(** Functions of the package that are not among the sources. *)
Context (EntityExpansion : CQR → EntityExpanderT → CQR * option error).
Context (MapKeywords : CQR → KeywordMapperT → CQR * option error).

(** Body of [for _, postProcessor := range t.postProcessing]. *)
Definition post_process_one (q : CQR) (postProcessor : CQR → CQR * option error)
    : flow CQR error :=
  let '(q, err) := postProcessor q in
  match err with
  | Some e => Exit e
  | None => Next q
  end.

Definition formulated : Type := list CQR * list (SupplementalData DataMarshaler) * option error.

Definition Formulate (t : ConceptualFormulator) : formulated :=
  (* Query Logic Composition. *)
  let '(q, err) := LogicComposer t (title t) in
  match err with
  | Some e => ([], [], Some e)
  | None =>
      (* Entity Extraction. *)
      let '(q, err) := EntityExtractor t q in
      match err with
      | Some e => ([], [], Some e)
      | None =>
          (* Entity Expansion. *)
          let '(q, err) :=
            match EntityExpander t with
            | Some expander => EntityExpansion q expander
            | None => (q, None)
            end in
          match err with
          | Some e => ([], [], Some e)
          | None =>
              (* Entities to Keywords Mapping. *)
              let '(q, err) := MapKeywords q (KeywordMapper t) in
              match err with
              | Some e => ([], [], Some e)
              | None =>
                  (* Post-Processing. *)
                  match for_range post_process_one (cPostProcessing t) q with
                  | Exit e => ([], [], Some e)
                  | Next q => ([q], [], None)
                  end
              end
          end
      end
  end.

Definition Method (t : ConceptualFormulator) : string := "conceptual".
Definition Topic (t : ConceptualFormulator) : string := topic t.

Definition NewConceptualFormulator (title topic : string)
    (logicComposer : string → CQR * option error)
    (entityExtractor : CQR → CQR * option error)
    (entityExpander : option EntityExpanderT) (keywordMapper : KeywordMapperT)
    (postProcessing : list (CQR → CQR * option error)) : ConceptualFormulator :=
  mkConceptualFormulator title topic logicComposer entityExtractor entityExpander
    keywordMapper postProcessing.

(** The formulator [t] with the entity expander [expander]. *)
Definition with_expander (t : ConceptualFormulator) (expander : EntityExpanderT)
    : ConceptualFormulator :=
  mkConceptualFormulator (title t) (topic t) (LogicComposer t) (EntityExtractor t)
    (Some expander) (KeywordMapper t) (cPostProcessing t).

End conceptual.

Section options.
Context {CQR Documents Terms BackgroundCollection EntrezStatisticsSource : Type}.

Abbreviation ObjectiveFormulator :=
  (@ObjectiveFormulator CQR Documents Terms BackgroundCollection EntrezStatisticsSource).

(** An option is a function that writes to the formulator it is handed;
    here, a function from the formulator before to the formulator
    after. *)
Definition ObjectiveOption : Type := ObjectiveFormulator → ObjectiveFormulator.

Definition ObjectiveGrid (devK popK : list float64) (meshK : list Z) : ObjectiveOption :=
  λ o, mkObjectiveFormulator (seed o) (Folder o) (Pubdates o) (SemTypes o) (MetaMapURL o)
         (query o) (s o) (qrels o) meshK devK popK (population o) (splitter o)
         (analyser o) (postProcessing o).

Definition ObjectiveSplitter (spitter : Documents → Documents * Documents * Documents)
    : ObjectiveOption :=
  λ o, mkObjectiveFormulator (seed o) (Folder o) (Pubdates o) (SemTypes o) (MetaMapURL o)
         (query o) (s o) (qrels o) (MeSHK o) (DevK o) (PopK o) (population o) spitter
         (analyser o) (postProcessing o).

Definition ObjectiveAnalyser (analyser : Documents → Terms * option error)
    : ObjectiveOption :=
  λ o, mkObjectiveFormulator (seed o) (Folder o) (Pubdates o) (SemTypes o) (MetaMapURL o)
         (query o) (s o) (qrels o) (MeSHK o) (DevK o) (PopK o) (population o) (splitter o)
         analyser (postProcessing o).

Definition ObjectivePostProcessing (processes : list (CQR → CQR * option error))
    : ObjectiveOption :=
  λ o, mkObjectiveFormulator (seed o) (Folder o) (Pubdates o) (SemTypes o) (MetaMapURL o)
         (query o) (s o) (qrels o) (MeSHK o) (DevK o) (PopK o) (population o) (splitter o)
         (analyser o) processes.

(** The constants [0.20] and [0.02]. *)
Definition f0_20 : float64 := Eval vm_compute in fdiv (of_Z 1) (of_Z 5).
Definition f0_02 : float64 := Eval vm_compute in fdiv (of_Z 1) (of_Z 50).

(** The defaults of other packages: [RandomSplitter(1000)] and
    [TermFrequencyAnalyser]. *)
Context (RandomSplitter : Z → Documents → Documents * Documents * Documents).
Context (TermFrequencyAnalyser : Documents → Terms * option error).

Definition NewObjectiveFormulator (query : string * string * CQR)
    (s : EntrezStatisticsSource) (qrels : gmap string Eval.Qrel)
    (population : BackgroundCollection) (folder pubdates semTypes metamapURL : string)
    (options : list ObjectiveOption) : ObjectiveFormulator :=
  let o := mkObjectiveFormulator 0 folder pubdates semTypes metamapURL query s qrels
             [20] [f0_20] [f0_02] population (RandomSplitter 1000) TermFrequencyAnalyser [] in
  foldl (λ o option, option o) o options.

Definition Method_objective (o : ObjectiveFormulator) : string := "objective".
Definition Topic_objective (o : ObjectiveFormulator) : string := (query o).1.2.

(** An option made by [ObjectiveSplitter], [ObjectiveAnalyser] or
    [ObjectivePostProcessing]. *)
Definition not_a_grid (option : ObjectiveOption) : Prop :=
  (∃ spitter, option = ObjectiveSplitter spitter) ∨
  (∃ analyser, option = ObjectiveAnalyser analyser) ∨
  (∃ processes, option = ObjectivePostProcessing processes).

(** An option made by one of the four functions. *)
Definition made_option (option : ObjectiveOption) : Prop :=
  (∃ devK popK meshK, option = ObjectiveGrid devK popK meshK) ∨ not_a_grid option.

End options.
End FormulationMethods.

(** ** Package learning: testing a query chain *)

Module LearningTest.
Import Learning.

(** What [Test] does to the file system. *)
Inductive operation : Type :=
| MkdirAll (directory : string)
| WriteFile (filename data : string).

Section test.
Context {CandidateQuery Query Transformation Measurement
         StatisticsSource MeasurementExecutor CQR CQRQuery BooleanQuery : Type}.
Context (zeroCandidateQuery : CandidateQuery).
Context (NewCandidateQuery : Query → CandidateQuery).
Context (Variations : CandidateQuery → StatisticsSource → MeasurementExecutor →
                      list Measurement → list Transformation →
                      list CandidateQuery * option error).
Context {S : Type} `{!QueryChainCandidateSelector (CandidateQuery := CandidateQuery) S}.

(** The fields [Query] of a candidate and [Topic] of a query. *)
Context (Query_ : CandidateQuery → CQR) (Topic : Query → string).

(** Other packages: [backend.NewCQRQuery(q).String()],
    [transmute.Cqr2Medline.Execute], the [String] method of its result,
    and [path.Join]. *)
Context (CQRString : CQR → string * option error).
Context (Cqr2Medline : string → BooleanQuery * option error).
Context (BooleanString : BooleanQuery → string * option error).
Context (Join : string → string → string).

(** The file system: whether making the directory, and writing a file,
    fails. *)
Context (mkdirAll : string → option error) (writeFile : string → string → option error).

(** What [Test] returns, after what it has done to the file system;
    [None] when a chain was not through within the rounds given. *)
Definition tested : Type := option (list operation * option error).

(** Body of [for _, q := range qc.Queries]; the loop state is the
    operations so far. *)
Definition test_query (qc : QueryChain S) (TransformedOutput : string) (fuel : nat)
    (ops : list operation) (q : Query) : flow (list operation) tested :=
  (* Perform the query chain process on the query. *)
  match Execute zeroCandidateQuery NewCandidateQuery Variations qc q fuel with
  | None => Exit None
  | Some (_, Some e) => Exit (Some (ops, Some e))
  | Some (tq, None) =>
      (* Transform query to medline. *)
      match CQRString (Query_ tq) with
      | (_, Some e) => Exit (Some (ops, Some e))
      | (cq, None) =>
          match Cqr2Medline cq with
          | (_, Some e) => Exit (Some (ops, Some e))
          | (bq, None) =>
              match BooleanString bq with
              | (_, Some e) => Exit (Some (ops, Some e))
              | (ml, None) =>
                  (* Write query to file. *)
                  let ops := ops ++ [WriteFile (Join TransformedOutput (Topic q)) ml] in
                  match writeFile (Join TransformedOutput (Topic q)) ml with
                  | Some e => Exit (Some (ops, Some e))
                  | None => Next ops
                  end
              end
          end
      end
  end.

(** [Test] runs the chain on each of [qc.Queries] and writes the
    transformed query to a file named by the topic. [TransformedOutput]
    and [Queries] are the fields of [qc] that [Execute] does not read.
    [Execute] assigns to its local [sel] only, so every query starts from
    [qc.CandidateSelector]. *)
Definition Test (qc : QueryChain S) (TransformedOutput : string) (Queries : list Query)
    (fuel : nat) : tested :=
  (* Create directory if not exists. *)
  match mkdirAll TransformedOutput with
  | Some e => Some ([MkdirAll TransformedOutput], Some e)
  | None =>
      match for_range (test_query qc TransformedOutput fuel) Queries
                      [MkdirAll TransformedOutput] with
      | Exit r => r
      | Next ops => Some (ops, None)
      end
  end.

(** *** Notions used to state properties of [Test] *)

(** The file an operation writes, if it is a write. *)
Definition written (op : operation) : option string :=
  match op with
  | WriteFile filename _ => Some filename
  | MkdirAll _ => None
  end.

End test.
End LearningTest.

(** ** More test doubles *)

Module Scenario2.

(** A generation step that fails. *)
Definition failing_variation (cq : nat) (_ _ : unit) (_ _ : list unit)
    : list nat * option error :=
  ([], Some (ErrOther "generation failed")).

(** A ranking file with two negative scores, and one with four scores. *)
Definition negative_ranks (filename : string) : string * option error :=
  ("-1" +:+ String Learning.LF ("-3" +:+ String Learning.LF EmptyString), None).

Definition four_ranks (filename : string) : string * option error :=
  ("1" +:+ String Learning.LF ("3" +:+ String Learning.LF
     ("2" +:+ String Learning.LF ("5" +:+ String Learning.LF EmptyString))), None).

(** The statistics source of the test collection, run on a query. *)
Definition run_query (_ : unit) (nq : @Rewrite.PipelineQuery Scenario.collection)
    : Eval.ResultList * option error :=
  match Scenario.postings nq.2 with
  | Some ds => (Scenario.doc <$> ds, None)
  | None => ([], Some (ErrOther "retrieval failed"))
  end.

(** A transformation with a candidate the source cannot run (query 9) and
    one it can (query 1), and a transformation that fails to apply. *)
Definition mixed : @RewriteFeatures.Transformation Scenario.collection string :=
  RewriteFeatures.mkTransformation "mixed"
    (λ _, ([@RewriteFeatures.mkCandidateQuery Scenario.collection string 9%nat "broken";
            @RewriteFeatures.mkCandidateQuery Scenario.collection string 1%nat "narrower"],
           None)).

Definition inapplicable : @RewriteFeatures.Transformation Scenario.collection string :=
  RewriteFeatures.mkTransformation "inapplicable" (λ _, ([], Some (ErrOther "cannot apply"))).

(** A statistics source that knows the vocabulary of every field and the
    frequency of every term but "rare". *)
Definition vocabulary : Preqpp.StatisticsSource :=
  Preqpp.mkStatisticsSource
    (λ field, (of_Z 8, None))
    (λ term field, if decide (term = "rare") then (fzero, Some (ErrOther "unknown term"))
                   else (of_Z 3, None)).

(** A directory with a subdirectory and two protocol files, the second
    of which is not well-formed. *)
Definition protocols (directory : string) : list QuerySource.FileInfo * option error :=
  ([QuerySource.mkFileInfo true "archive"; QuerySource.mkFileInfo false "CD001";
    QuerySource.mkFileInfo false "CD002"], None).

Definition protocol_file (path : string) : string * option error := (path, None).

Definition parse_protocol (source : string) : QuerySource.protocol * option error :=
  if decide (source = "topics/CD002")
  then (QuerySource.mkProtocol EmptyString EmptyString EmptyString EmptyString
          EmptyString EmptyString, Some (ErrOther "XML syntax error"))
  else (QuerySource.mkProtocol "objective" "type" "participants" "tests" "conditions"
          "standards", None).

Definition construct_two (objective participants indexTests targetConditions : string)
    : list string * option error :=
  ([objective; participants], None).

(** A file system on which writing the file of topic "T2" fails. *)
Definition write_protected (filename data : string) : option error :=
  if decide (filename = "out/T2") then Some (ErrOther "permission denied") else None.

(** A parser that, as [strconv.ParseFloat] does, reads "NaN" as a NaN. *)
Definition parse_score (text : string) : float64 + error :=
  if decide (text = "NaN") then inl S754_nan else Scenario.parse_number text.

(** A ranking file whose second score is a NaN. *)
Definition nan_ranks (filename : string) : string * option error :=
  ("1" +:+ String Learning.LF ("NaN" +:+ String Learning.LF
     ("2" +:+ String Learning.LF EmptyString)), None).

(** The number 5 written with 65536 digits, and a ranking file with it as
    its first score. *)
Definition long_score : string := Pos.iter (String "0"%char) "5" 65535.

Definition long_ranks (filename : string) : string * option error :=
  (long_score +:+ String Learning.LF ("1" +:+ String Learning.LF EmptyString), None).

End Scenario2.


(** * Properties *)

(** ** Comparisons of float64 *)

Module Float64Facts.

Ltac float_cases :=
  repeat (simpl in *; match goal with
  | s : bool |- _ => destruct s
  | |- context [(?a ?= ?b)%Z] => destruct (Z.compare_spec a b)
  | H : context [(?a ?= ?b)%Z] |- _ => destruct (Z.compare_spec a b)
  | |- context [PosDef.Pos.compare_cont Eq ?a ?b] =>
      change (PosDef.Pos.compare_cont Eq a b) with (Pos.compare a b) in *;
      destruct (Pos.compare_spec a b)
  | H : context [PosDef.Pos.compare_cont Eq ?a ?b] |- _ =>
      change (PosDef.Pos.compare_cont Eq a b) with (Pos.compare a b) in *;
      destruct (Pos.compare_spec a b)
  end); simpl in *; try congruence; try lia.

Lemma fle_trans a b c : fle a b = true → fle b c = true → fle a c = true.
Proof.
  unfold fle, SFleb.
  destruct a as [sa|sa| |sa ma ea], b as [sb|sb| |sb mb eb], c as [sc|sc| |sc mc ec];
    simpl; intros; float_cases.
Qed.

(** [a == a] holds for every float but NaN. *)
Lemma feq_self a : feq a a = negb (is_nan a).
Proof.
  unfold feq, SFeqb. destruct a as [sa|sa| |sa ma ea]; simpl; try done.
  - by destruct sa.
  - change (PosDef.Pos.compare_cont Eq ma ma) with (Pos.compare ma ma).
    rewrite Z.compare_refl, Pos.compare_refl. by destruct sa.
Qed.

Lemma fle_refl a : is_nan a = false → fle a a = true.
Proof.
  unfold fle, SFleb. destruct a as [sa|sa| |sa ma ea]; simpl; try done.
  - by destruct sa.
  - change (PosDef.Pos.compare_cont Eq ma ma) with (Pos.compare ma ma).
    rewrite Z.compare_refl, Pos.compare_refl. by destruct sa.
Qed.

Lemma flt_fle a b : flt a b = true → fle a b = true.
Proof. unfold flt, fle, SFltb, SFleb. by destruct (SFcompare a b) as [[]|]. Qed.

(** Without NaN the order is total. *)
Lemma fle_total a b :
  is_nan a = false → is_nan b = false → flt b a = false → fle a b = true.
Proof.
  unfold fle, flt, SFleb, SFltb.
  destruct a as [sa|sa| |sa ma ea], b as [sb|sb| |sb mb eb];
    simpl; intros; float_cases.
Qed.

Lemma fle_not_nan a b : fle a b = true → is_nan a = false ∧ is_nan b = false.
Proof. unfold fle, SFleb. by destruct a, b. Qed.

Lemma flt_not_nan a b : flt a b = true → is_nan a = false ∧ is_nan b = false.
Proof. unfold flt, SFltb. by destruct a, b. Qed.

End Float64Facts.

(** ** Loops with early exit *)

Module LoopFacts.

Lemma for_range_app {S R X} (body : S → X → flow S R) xs ys s :
  for_range body (xs ++ ys) s =
  match for_range body xs s with
  | Next s' => for_range body ys s'
  | Exit r => Exit r
  end.
Proof.
  revert s. induction xs as [|x xs IH]; intros s; simpl; [done|].
  destruct (body s x); [apply IH | done].
Qed.

(** An invariant [I] of the loop state that every pass keeps, with [Q]
    holding of whatever a pass leaves the function with, holds at the end of
    the loop. *)
Lemma for_range_invariant {S R X} (I : S → Prop) (Q : R → Prop) (body : S → X → flow S R) :
  (∀ s x, I s → match body s x with Next s' => I s' | Exit r => Q r end) →
  ∀ xs s, I s → match for_range body xs s with Next s' => I s' | Exit r => Q r end.
Proof.
  intros Hbody xs. induction xs as [|x xs IH]; intros s Hs; simpl; [done|].
  specialize (Hbody s x Hs). destruct (body s x) as [s'|r]; [by apply IH | done].
Qed.

End LoopFacts.

(** ** Evaluate *)

Module EvalFacts.
Import Eval.

Lemma score_all_snoc evaluators e results q scores :
  score_all (evaluators ++ [e]) results q scores =
  <[Name e := score e results q]> (score_all evaluators results q scores).
Proof. unfold score_all. by rewrite foldl_app. Qed.

(** The keys after scoring: those before, and every evaluator's name. *)
Lemma score_all_is_Some evaluators results q scores name :
  is_Some (score_all evaluators results q scores !! name) ↔
  is_Some (scores !! name) ∨ ∃ e, e ∈ evaluators ∧ Name e = name.
Proof.
  induction evaluators as [|e evaluators IH] using rev_ind.
  - simpl. split; [by left|]. intros [?|(e & He & _)]; [done|]. by apply elem_of_nil in He.
  - rewrite score_all_snoc, lookup_insert_is_Some', IH. split.
    + intros [<-|[?|(e' & He' & Hn)]].
      * right. exists e. split; [|done]. apply elem_of_app. right. by apply list_elem_of_singleton.
      * by left.
      * right. exists e'. split; [|done]. apply elem_of_app. by left.
    + intros [?|(e' & He' & Hn)]; [by right; left|].
      apply elem_of_app in He' as [He'|He'].
      * right. right. by exists e'.
      * apply list_elem_of_singleton in He' as ->. by left.
Qed.

(** Every entry written is some evaluator's score of [results]. *)
Lemma score_all_lookup_Some evaluators results q scores name v :
  score_all evaluators results q scores !! name = Some v →
  scores !! name = Some v ∨ ∃ e, e ∈ evaluators ∧ Name e = name ∧ v = score e results q.
Proof.
  induction evaluators as [|e evaluators IH] using rev_ind; [by left|].
  rewrite score_all_snoc. destruct (decide (Name e = name)) as [<-|Hne].
  - rewrite lookup_insert_eq. intros [= <-]. right. exists e. split_and!; [|done..].
    apply elem_of_app. right. by apply list_elem_of_singleton.
  - rewrite lookup_insert_ne by done. intros [?|(e' & He' & ? & ?)]%IH; [by left|].
    right. exists e'. split_and!; [|done..]. apply elem_of_app. by left.
Qed.

(** With names that differ, each evaluator finds its own score. *)
Lemma score_all_lookup_NoDup evaluators results q scores e :
  NoDup (Name <$> evaluators) → e ∈ evaluators →
  score_all evaluators results q scores !! Name e = Some (score e results q).
Proof.
  induction evaluators as [|e' evaluators IH] using rev_ind.
  - intros _ He. by apply elem_of_nil in He.
  - rewrite fmap_app, score_all_snoc. intros [Hnd [Hdisj _]]%NoDup_app He.
    apply elem_of_app in He as [He|He].
    + rewrite lookup_insert_ne; [by apply IH|].
      intros Heq. apply (Hdisj (Name e)); [by apply list_elem_of_fmap_2|].
      rewrite <- Heq. simpl. apply list_elem_of_singleton. done.
    + apply list_elem_of_singleton in He as ->. by rewrite lookup_insert_eq.
Qed.

(** C6. When the retrieved result list is empty, [Evaluate] neither stops
    short nor fails: it scores the explicit empty list with every
    evaluator. The map it returns has an entry for a name exactly when an
    evaluator bears that name, every entry is the score some evaluator of
    that name gives the empty list, and when the names differ each
    evaluator's entry is its own score of the empty list. *)
Theorem Evaluate_empty_results (evaluators : list Evaluator) (results : ResultList)
    (qrels : QrelsFile) (topic : string) :
  results = [] →
  let q := default ∅ (Qrels qrels !! topic) in
  let scores := Evaluate evaluators results qrels topic in
  (∀ name, is_Some (scores !! name) ↔ ∃ e, e ∈ evaluators ∧ Name e = name) ∧
  (∀ name v, scores !! name = Some v →
     ∃ e, e ∈ evaluators ∧ Name e = name ∧ v = score e [] q) ∧
  (NoDup (Name <$> evaluators) →
     ∀ e, e ∈ evaluators → scores !! Name e = Some (score e [] q)).
Proof.
  intros -> q scores. subst scores. unfold Evaluate. simpl. fold q. split_and!.
  - intros name. rewrite score_all_is_Some, lookup_empty. split; [|by right].
    intros [[? [=]]|?]; done.
  - intros name v [Hv|?]%score_all_lookup_Some; [|done]. by rewrite lookup_empty in Hv.
  - intros Hnd e He. by apply score_all_lookup_NoDup.
Qed.

(** On the test collection, an empty result list scores recall 0 and
    0 retrieved documents. *)
Lemma Evaluate_empty_results_witness :
  let scores := Evaluate [Scenario.recall; Scenario.num_ret] [] Scenario.judged "T1" in
  scores !! "Recall" = Some fzero ∧ scores !! "NumRet" = Some fzero.
Proof.
  pose proof (Evaluate_empty_results [Scenario.recall; Scenario.num_ret] []
                Scenario.judged "T1" eq_refl) as (_ & _ & Hown).
  assert (Hnd : NoDup (Name <$> [Scenario.recall; Scenario.num_ret])).
  { simpl. apply NoDup_cons. split; [|apply NoDup_singleton].
    intros Hin%list_elem_of_singleton. discriminate. }
  split.
  - exact (Hown Hnd Scenario.recall ltac:(apply list_elem_of_here)).
  - exact (Hown Hnd Scenario.num_ret ltac:(apply list_elem_of_further, list_elem_of_here)).
Defined.

End EvalFacts.

(** ** The oracle candidate selector *)

Module RewriteFacts.
Import Eval Rewrite Float64Facts LoopFacts.

Section oracle.
Context `{Combinator}.

Lemma not_below_step b0 b n : not_below b0 b → fle b n = true → not_below b0 n.
Proof.
  intros [->|Hle] Hn; right; [done|]. by apply fle_trans with b.
Qed.

Lemma not_above_step r0 r n : not_above r0 r → fle n r = true → not_above r0 n.
Proof.
  intros [->|Hle] Hn; right; [done|]. by apply fle_trans with r.
Qed.




(** Every return path hands back a state that carries the call's
    bookkeeping. *)
Lemma visit_bookkept oc0 st applied :
  bookkept oc0 (l_oc st) →
  match visit st applied with
  | Next st' => bookkept oc0 (l_oc st')
  | Exit r => bookkept oc0 r.1.2
  end.
Proof.
  intros Hb. unfold visit.
  destruct (NewLogicalTree _ _ _) as [[tree seen'] [e|]]; simpl; [done|].
  by destruct (_ && _ && _).
Qed.

Lemma transform_bookkept zero oc0 st transformation :
  bookkept oc0 (l_oc st) →
  match transform zero st transformation with
  | Next st' => bookkept oc0 (l_oc st')
  | Exit r => bookkept oc0 r.1.2
  end.
Proof.
  intros Hb. unfold transform. destruct (Apply _ _) as [queries [e|]]; [done|].
  apply (for_range_invariant (λ st, bookkept oc0 (l_oc st)) (λ r : selected, bookkept oc0 r.1.2));
    [|done].
  intros ???. by apply visit_bookkept.
Qed.

Lemma enter_bookkept oc : bookkept oc (enter oc).
Proof. unfold enter, bookkept. simpl. by destruct (seen oc). Qed.

Lemma baseline_bookkept oc0 oc query :
  bookkept oc0 oc →
  match baseline oc query with
  | Next oc' => bookkept oc0 oc'
  | Exit r => bookkept oc0 r.1.2
  end.
Proof.
  intros Hb. unfold baseline. destruct (feq _ _); [|done].
  by destruct (NewLogicalTree _ _ _) as [[tree seen'] [e|]].
Qed.

Lemma Select_bookkept (zero : TransformedQuery) (oc : OracleQueryChainCandidateSelector)
    (query : TransformedQuery) (transformations : list Transformation) :
  bookkept oc (Select zero oc query transformations).1.2.
Proof.
  unfold Select.
  pose proof (baseline_bookkept oc (enter oc) query (enter_bookkept oc)) as Hb.
  destruct (baseline (enter oc) query) as [oc1|r]; [|done].
  pose proof (for_range_invariant (λ st, bookkept oc (l_oc st))
                (λ r : selected, bookkept oc r.1.2) (transform zero)
                (λ st t, transform_bookkept zero oc st t) transformations
                (mkLocals oc1 (bestRelRet oc1) (bestRet oc1) query) Hb) as Hloop.
  by destruct (for_range _ _ _).
Qed.

(** C8. [Select] works on its own copy of the receiver and hands that
    copy back: whatever path it returns by, the state returned has the
    caller's depth plus one and the caller's best values as its previous
    values, with the caller's judgments and statistics source. The caller's
    value [oc] is the argument itself, which the call cannot write (the
    receiver is passed by value); the updated bookkeeping is in the
    returned state only. *)
Theorem Select_returns_new_state (zero : TransformedQuery)
    (oc : OracleQueryChainCandidateSelector) (query : TransformedQuery)
    (transformations : list Transformation) :
  let oc' := (Select zero oc query transformations).1.2 in
  depth oc' = wrap_int (depth oc + 1) ∧
  prevRelRet oc' = bestRelRet oc ∧
  prevRet oc' = bestRet oc ∧
  qrels oc' = qrels oc ∧
  ss oc' = ss oc.
Proof.
  cbv zeta. change (bookkept oc (Select zero oc query transformations).1.2).
  unfold Select.
  pose proof (enter_bookkept oc) as Hentered.
  pose proof (baseline_bookkept oc (enter oc) query Hentered) as Hb.
  destruct (baseline (enter oc) query) as [oc1|r]; [|exact Hb].
  pose proof (for_range_invariant (λ st, bookkept oc (l_oc st))
                (λ r : selected, bookkept oc r.1.2) (transform zero)
                (λ st t, transform_bookkept zero oc st t) transformations
                (mkLocals oc1 (bestRelRet oc1) (bestRet oc1) query) Hb) as Hloop.
  destruct (for_range (transform zero) transformations _) as [st|r]; exact Hloop.
Qed.

(** Threaded through [Execute], a selector that starts at a depth from 0
    to 5 stops the chain within the rounds left up to depth 5, whatever
    the candidates score: five rounds are enough for a fresh selector. *)
Lemma rounds_halt (zero : TransformedQuery) (transformations : list Transformation)
    (n : nat) (tq : TransformedQuery) (sel : OracleQueryChainCandidateSelector) :
  0 ≤ depth sel → (Z.to_nat (5 - depth sel) ≤ n)%nat →
  is_Some (rounds zero transformations n tq sel (StoppingCriteria sel)).
Proof.
  revert tq sel. induction n as [|n IH]; intros tq sel Hpos Hfuel.
  - assert (Hstop : StoppingCriteria sel = true).
    { unfold StoppingCriteria. by rewrite (proj2 (Z.leb_le 5 (depth sel))) by lia. }
    rewrite Hstop. by eexists.
  - simpl. destruct (StoppingCriteria sel) eqn:Hstop; [by eexists|].
    assert (Hdepth : depth sel < 5).
    { unfold StoppingCriteria in Hstop. destruct (Z.leb_spec 5 (depth sel)); [done|lia]. }
    pose proof (Select_bookkept zero sel tq transformations) as (Hd & _).
    destruct (Select zero sel tq transformations) as [[tq' sel'] [e|]]; [by eexists|].
    simpl in Hd. apply IH.
    + rewrite Hd. unfold wrap_int. rewrite Z.mod_small; lia.
    + rewrite Hd. unfold wrap_int. rewrite Z.mod_small; lia.
Qed.

Lemma Execute_halts_within_five (zero : TransformedQuery) (transformations : list Transformation)
    (source : StatisticsSource) (file : QrelsFile) (query : PipelineQuery) :
  is_Some (Execute zero
             (mkQueryChain transformations (NewOracleQueryChainCandidateSelector source file))
             query 5).
Proof. unfold Execute. apply rounds_halt; simpl; lia. Qed.

Lemma visit_kept_up b0 r0 m0 st applied :
  mirrored st → kept_up b0 r0 m0 (l_oc st) →
  match visit st applied with
  | Next st' => mirrored st' ∧ kept_up b0 r0 m0 (l_oc st')
  | Exit r => kept_up b0 r0 m0 r.1.2
  end.
Proof.
  intros [Hrr Hr] (Hb & Ha & Hm). unfold visit.
  destruct (NewLogicalTree _ _ _) as [[tree seen'] [e|]]; simpl; [done|].
  destruct (_ && _ && _) eqn:Htest; simpl; [|done].
  apply andb_true_iff in Htest as [[_ Hge]%andb_true_iff Hle].
  rewrite Hrr in Hge. rewrite Hr in Hle. unfold fge in Hge.
  split; [done|]. split_and!; simpl; [|by eapply not_above_step|done].
  eapply not_below_step; [exact Hb|exact Hge].
Qed.

Lemma transform_kept_up zero b0 r0 m0 st transformation :
  mirrored st → kept_up b0 r0 m0 (l_oc st) →
  match transform zero st transformation with
  | Next st' => mirrored st' ∧ kept_up b0 r0 m0 (l_oc st')
  | Exit r => kept_up b0 r0 m0 r.1.2
  end.
Proof.
  intros Hmir Hk. unfold transform. destruct (Apply _ _) as [queries [e|]]; [done|].
  apply (for_range_invariant (λ st, mirrored st ∧ kept_up b0 r0 m0 (l_oc st))
           (λ r : selected, kept_up b0 r0 m0 r.1.2)); [|done].
  intros s x [??]. by apply visit_kept_up.
Qed.

(** C4, as amended. Once the baseline is taken ([minResults] is not 0), a
    call of [Select] never regresses whatever the candidates are and
    whatever path it returns by: the returned bestRelRet is the caller's or
    at least it, the returned bestRet is the caller's or at most it, and
    the state returned is seeded still, so the next call is bound in the
    same way. For values that are numbers (not NaN) this is
    [bestRelRet oc <= bestRelRet oc'] and [bestRet oc' <= bestRet oc]. *)
Theorem Select_never_regresses_once_seeded (zero : TransformedQuery)
    (oc : OracleQueryChainCandidateSelector) (query : TransformedQuery)
    (transformations : list Transformation) :
  feq (minResults oc) fzero = false →
  let oc' := (Select zero oc query transformations).1.2 in
  (bestRelRet oc' = bestRelRet oc ∨ fle (bestRelRet oc) (bestRelRet oc') = true) ∧
  (bestRet oc' = bestRet oc ∨ fle (bestRet oc') (bestRet oc) = true) ∧
  (is_nan (bestRelRet oc) = false → fle (bestRelRet oc) (bestRelRet oc') = true) ∧
  (is_nan (bestRet oc) = false → fle (bestRet oc') (bestRet oc) = true) ∧
  feq (minResults oc') fzero = false.
Proof.
  intros Hseeded oc'.
  assert (Hk : kept_up (bestRelRet oc) (bestRet oc) (minResults oc) oc').
  { subst oc'. unfold Select, baseline.
    replace (minResults (enter oc)) with (minResults oc)
      by (unfold enter; simpl; by destruct (seen oc)).
    rewrite Hseeded.
    assert (Hstart : mirrored (mkLocals (enter oc) (bestRelRet (enter oc))
                                        (bestRet (enter oc)) query) ∧
                     kept_up (bestRelRet oc) (bestRet oc) (minResults oc) (enter oc)).
    { unfold mirrored, kept_up, not_below, not_above, enter. simpl.
      destruct (seen oc); simpl; auto 10. }
    pose proof (for_range_invariant
                  (λ st, mirrored st ∧ kept_up (bestRelRet oc) (bestRet oc) (minResults oc) (l_oc st))
                  (λ r : selected, kept_up (bestRelRet oc) (bestRet oc) (minResults oc) r.1.2)
                  (transform zero)
                  (λ st t Hst, transform_kept_up zero _ _ _ st t (proj1 Hst) (proj2 Hst))
                  transformations _ Hstart) as Hloop.
    destruct (for_range _ _ _); [by destruct Hloop|done]. }
  destruct Hk as (Hb & Ha & Hm). split_and!; [done|done| | |by rewrite Hm].
  - intros Hnan. destruct Hb as [->|?]; [by apply fle_refl|done].
  - intros Hnan. destruct Ha as [->|?]; [by apply fle_refl|done].
Qed.

(** The test the source writes, spelled out: past depth 5, or with
    [bestRet] equal to [prevRet] as long as [bestRelRet] is a number; what
    [prevRelRet] holds plays no part. *)
Lemma StoppingCriteria_true_iff (oc : OracleQueryChainCandidateSelector) :
  StoppingCriteria oc = true ↔
  5 ≤ depth oc ∨ (is_nan (bestRelRet oc) = false ∧ feq (bestRet oc) (prevRet oc) = true).
Proof.
  unfold StoppingCriteria. rewrite feq_self.
  destruct (Z.leb_spec 5 (depth oc)); simpl.
  - split; [by left|done].
  - destruct (is_nan (bestRelRet oc)); simpl.
    + split; [done|]. intros [?|[? _]]; [lia|done].
    + destruct (feq (bestRet oc) (prevRet oc)); simpl.
      * split; [by right|done].
      * split; [done|]. intros [?|[_ ?]]; [lia|done].
Qed.

(** A candidate whose tree cannot be resolved ends the whole call: the
    candidates after it are not looked at. *)
Lemma visit_retrieval_failure (st : locals) (applied : CandidateQuery) tree seen' e later :
  NewLogicalTree (candidate_query st applied) (ss (l_oc st)) (seen_map (l_oc st))
    = (tree, seen', Some e) →
  for_range visit (applied :: later) st
    = Exit (l_query st, set_seen (l_oc st) (Some seen'), Some e).
Proof.
  intros Htree. simpl. unfold visit, candidate_query in *. by rewrite Htree.
Qed.

End oracle.

(** *** On the test collection *)

Import Scenario.


(** The order of the candidates matters: candidate 3 (one relevant among
    two retrieved) improves on the round's starting best (1 among 3), yet
    after candidate 1 (2 among 3) has been accepted it is turned down. *)
Example later_candidate_meets_updated_best :
  (Select no_query seeded seed_query [two_way]).1.1
    = Append seed_query (numbered 1) ∧
  (Select no_query seeded seed_query
     [rewrites "three" (λ q, match q with 0%nat => [3%nat] | _ => [] end)]).1.1
    = Append seed_query (numbered 3).
Proof. split; reflexivity. Qed.

Lemma Select_never_regresses_once_seeded_witness :
  feq (minResults round1.1.2) fzero = false ∧
  fle (bestRelRet round1.1.2) (bestRelRet round2.1.2) = true ∧
  fle (bestRet round2.1.2) (bestRet round1.1.2) = true.
Proof.
  assert (Hseeded : feq (minResults round1.1.2) fzero = false) by (by vm_compute).
  destruct (Select_never_regresses_once_seeded no_query round1.1.2 round1.1.1
              [narrowing] Hseeded) as (_ & _ & Hrr & Hr & _).
  split; [exact Hseeded|]. split; [apply Hrr|apply Hr]; by vm_compute.
Defined.

(** C4, as stated, fails on the call that takes the baseline: the fresh
    selector holds -1 for both best values, and the first call, here with
    no transformation at all, sets bestRet to the 3 documents the
    unmodified query retrieves. *)
Lemma Select_seeding_raises_bestRet :
  let oc' := (Select no_query fresh seed_query []).1.2 in
  bestRet fresh = of_Z (-1) ∧ bestRet oc' = of_Z 3 ∧
  ¬ (bestRet oc' = bestRet fresh ∨ fle (bestRet oc') (bestRet fresh) = true).
Proof. vm_compute. split_and!; [done..|]. intros [?|?]; discriminate. Qed.

(** C1. After two rounds of narrowing, the selector is at depth 2 and its
    bestRelRet has just improved (from 2 to 3, so the best scores did
    change), yet [StoppingCriteria] answers true: the source compares
    [bestRelRet] with itself, and [bestRet] alone stayed the same. *)
Theorem StoppingCriteria_stops_while_improving :
  let oc := round2.1.2 in
  depth oc = 2 ∧
  prevRelRet oc = of_Z 2 ∧ bestRelRet oc = of_Z 3 ∧
  feq (bestRelRet oc) (prevRelRet oc) = false ∧
  feq (bestRet oc) (prevRet oc) = true ∧
  StoppingCriteria oc = true.
Proof. by vm_compute. Qed.

(** C5. The first candidate of the generation fails at the statistics
    source, and [Select] returns that error at once with the query as it
    was: the second candidate, which taken alone is accepted, is never
    evaluated and the best values stay those of the baseline. *)
Theorem Select_aborts_on_retrieval_failure :
  let r := Select no_query fresh seed_query [failing_first] in
  r.2 = Some (ErrOther "retrieval failed") ∧
  r.1.1 = seed_query ∧
  bestRelRet r.1.2 = of_Z 1 ∧ bestRet r.1.2 = of_Z 3 ∧
  (Select no_query fresh seed_query [narrowing]).2 = None ∧
  (Select no_query fresh seed_query [narrowing]).1.1 = Append seed_query (numbered 1) ∧
  bestRelRet (Select no_query fresh seed_query [narrowing]).1.2 = of_Z 2.
Proof. cbv zeta. split_and!; reflexivity. Qed.

End RewriteFacts.

(** ** The objective formulator *)

Module FormulationFacts.
Import Eval Formulation LoopFacts.

Section objective.
Context {CQR Documents Terms BackgroundCollection EntrezStatisticsSource DataMarshaler : Type}.
Context (fetchDocuments : list Z → EntrezStatisticsSource → Documents * option error).
Context (derive : @ObjectiveFormulator CQR Documents Terms BackgroundCollection
                    EntrezStatisticsSource →
                  Terms → Documents → Documents → BackgroundCollection →
                  CQR * CQR * option error).
Context (MakeQrels : Documents → DataMarshaler).

(** When the relevant judgments all carry numeric document ids, the loop
    collects one document per relevant judgment. *)
Lemma identify_counts (rels : list Qrel) (docs : list Z) (nonrel : list Qrel) :
  Forall (λ rel, 0 < qScore rel → is_Some (Atoi (qDocId rel))) rels →
  ∃ docs' nonrel',
    for_range identify rels (docs, nonrel) = Next (docs', nonrel') ∧
    length docs' = (length docs + length (filter (λ rel, (0 < qScore rel)%Z) rels))%nat.
Proof.
  intros Hnum. revert docs nonrel.
  induction Hnum as [|rel rels Hrel _ IH]; intros docs nonrel.
  - exists docs, nonrel. simpl. split; [done|lia].
  - simpl. rewrite filter_cons. destruct (Z.ltb_spec 0 (qScore rel)) as [Hpos|Hnp].
    + destruct (Hrel Hpos) as [v ->].
      destruct (IH (docs ++ [v]) nonrel) as (docs' & nonrel' & -> & Hlen).
      exists docs', nonrel'. split; [done|].
      rewrite decide_True by done. rewrite Hlen, length_app. simpl. lia.
    + destruct (IH docs (nonrel ++ [rel])) as (docs' & nonrel' & -> & Hlen).
      exists docs', nonrel'. split; [done|].
      rewrite decide_False by lia. lia.
Qed.

(** What the guard of the source does: with up to 50 relevant judgments,
    50 included, the request is rejected. *)
Lemma Formulate_rejects_up_to_fifty
    (o : @ObjectiveFormulator CQR Documents Terms BackgroundCollection EntrezStatisticsSource) :
  map_Forall (λ _ rel, 0 < qScore rel → is_Some (Atoi (qDocId rel))) (qrels o) →
  (size (filter (λ kv : string * Qrel, (0 < qScore kv.2)%Z) (qrels o)) ≤ 50)%nat →
  Formulate fetchDocuments derive MakeQrels o = Returns ([], [], Some not_enough).
Proof.
  intros Hnum Hsize. unfold Formulate.
  destruct (identify_counts (snd <$> map_to_list (qrels o)) [] []) as (docs & nonrel & -> & Hlen).
  { apply Forall_fmap, Forall_forall. intros [k rel] Hin%elem_of_map_to_list. simpl.
    by apply (Hnum k rel). }
  assert (Hdocs : length docs = size (filter (λ kv : string * Qrel, (0 < qScore kv.2)%Z) (qrels o))).
  { rewrite Hlen. clear Hlen. simpl. rewrite map_filter_alt.
    rewrite map_size_list_to_map.
    - induction (map_to_list (qrels o)) as [|[k rel] l IH]; [done|].
      rewrite fmap_cons, !filter_cons. simpl.
      destruct (decide (0 < qScore rel)); simpl; by rewrite IH.
    - eapply sublist_NoDup; [apply (NoDup_fst_map_to_list (qrels o))|].
      apply fmap_sublist, sublist_filter. }
  rewrite Hdocs. by destruct (Nat.leb_spec (size (filter (λ kv : string * Qrel,
    (0 < qScore kv.2)%Z) (qrels o))) 50); [|lia].
Qed.

End objective.

Import Scenario.

(** C3. With exactly 50 judged-relevant studies [Formulate] returns the
    error "not enough relevant studies (minimmum 50)", as it does with 49;
    it takes 51 for the formulation to go ahead. The guard reads
    [len(docs) <= 50] where the message, and the claim, put the minimum at
    50. *)
Theorem Formulate_rejects_fifty_relevant :
  size (filter (λ kv : string * Qrel, 0 < qScore kv.2) (relevant_studies 50)) = 50%nat ∧
  formulate 50 = Returns ([], [], Some not_enough) ∧
  formulate 49 = Returns ([], [], Some not_enough) ∧
  formulate 51 =
    Returns ([1%nat; 2%nat], [mkSupplementalData "objective" [mkData "unseen.qrels" []]], None).
Proof. by vm_compute. Qed.

End FormulationFacts.

(** ** The query chain and the ranking file *)

Module LearningFacts.
Import Learning Float64Facts LoopFacts.

Section chain.
Context {CandidateQuery Query Transformation Measurement
         StatisticsSource MeasurementExecutor : Type}.
Context (zeroCandidateQuery : CandidateQuery).
Context (NewCandidateQuery : Query → CandidateQuery).
Context (Variations : CandidateQuery → StatisticsSource → MeasurementExecutor →
                      list Measurement → list Transformation →
                      list CandidateQuery * option error).
Context {S : Type} `{!QueryChainCandidateSelector (CandidateQuery := CandidateQuery) S}.

Abbreviation chain_loop := (chain_loop zeroCandidateQuery Variations).
Abbreviation Execute := (Execute zeroCandidateQuery NewCandidateQuery Variations).

(** An error [Execute] ends with is one [Variations] or [Select] gave, and
    when it is [Select]'s it is not the cache-miss value. *)
Lemma chain_loop_error (qc : QueryChain S) fuel cq sel stop r e :
  chain_loop qc fuel cq sel stop = Some (r, Some e) →
  (∃ cq1, (Variations cq1 (qcStatisticsSource qc) (qcMeasurementExecutor qc)
             (Measurements qc) (Transformations qc)).2 = Some e) ∨
  (e ≠ ErrCacheMiss ∧ ∃ sel1 cq1 candidates, (Select sel1 cq1 candidates).2 = Some e).
Proof.
  revert cq sel stop. induction fuel as [|fuel IH]; intros cq sel stop; simpl.
  - by destruct stop.
  - destruct stop; [done|].
    destruct (Variations cq _ _ _ _) as [candidates [e1|]] eqn:Hvar.
    + intros [= <- <-]. left. exists cq. by rewrite Hvar.
    + destruct (decide (length candidates = 0%nat)); [done|].
      destruct (Select sel cq (candidates ++ [cq])) as [[cq' sel'] [e1|]] eqn:Hsel.
      * destruct (decide (e1 ≠ ErrCacheMiss)) as [Hne|_]; [|apply IH].
        intros [= <- <-]. right. split; [done|].
        exists sel, cq, (candidates ++ [cq]). by rewrite Hsel.
      * apply IH.
Qed.

(** C9. In a round where [Variations] gives candidates and [Select]
    returns the cache-miss value, [Execute] does not end: it goes on with
    the candidate and the selector [Select] returned, just as after a nil
    error, and ends without error as soon as that selector says stop. Any
    other error of [Select] ends [Execute] with that error. Over a whole
    run, an error [Execute] ends with that [Variations] did not give is an
    error of [Select] other than the cache-miss value. *)
Theorem Execute_cache_miss_not_surfaced (qc : QueryChain S) (fuel : nat)
    (cq : CandidateQuery) (sel : S) (candidates : list CandidateQuery)
    (cq' : CandidateQuery) (sel' : S) (err : option error) :
  Variations cq (qcStatisticsSource qc) (qcMeasurementExecutor qc)
             (Measurements qc) (Transformations qc) = (candidates, None) →
  candidates ≠ [] →
  Select sel cq (candidates ++ [cq]) = (cq', sel', err) →
  (err = Some ErrCacheMiss ∨ err = None →
     chain_loop qc (Datatypes.S fuel) cq sel false
       = chain_loop qc fuel cq' sel' (StoppingCriteria sel') ∧
     (StoppingCriteria sel' = true →
        chain_loop qc (Datatypes.S fuel) cq sel false = Some (cq', None))) ∧
  (∀ e, err = Some e → e ≠ ErrCacheMiss →
     chain_loop qc (Datatypes.S fuel) cq sel false = Some (zeroCandidateQuery, Some e)) ∧
  (∀ q n r e, Execute qc q n = Some (r, Some e) →
     (∀ cq1, (Variations cq1 (qcStatisticsSource qc) (qcMeasurementExecutor qc)
                (Measurements qc) (Transformations qc)).2 ≠ Some e) →
     e ≠ ErrCacheMiss).
Proof.
  intros Hvar Hne Hsel.
  assert (Hround : chain_loop qc (Datatypes.S fuel) cq sel false =
            match err with
            | Some e => if decide (e ≠ ErrCacheMiss) then Some (zeroCandidateQuery, Some e)
                        else chain_loop qc fuel cq' sel' (StoppingCriteria sel')
            | None => chain_loop qc fuel cq' sel' (StoppingCriteria sel')
            end).
  { simpl. rewrite Hvar. destruct (decide (length candidates = 0%nat)) as [Hlen|_].
    - by destruct candidates.
    - by rewrite Hsel. }
  split_and!.
  - intros Herr.
    assert (Hgo : chain_loop qc (Datatypes.S fuel) cq sel false
                  = chain_loop qc fuel cq' sel' (StoppingCriteria sel')).
    { rewrite Hround. destruct Herr as [-> | ->]; [|done]. by rewrite decide_False by auto. }
    split; [done|]. intros Hstop. rewrite Hgo, Hstop. by destruct fuel.
  - intros e -> He. rewrite Hround. by rewrite decide_True.
  - intros q n r e Hrun Hnot. unfold Learning.Execute in Hrun.
    apply chain_loop_error in Hrun as [[cq1 Hv]|[? _]]; [|done]. by destruct (Hnot cq1).
Qed.

End chain.

(** *** Sorting by descending key *)

Section sorting.
Context {A : Type} (key : A → float64).

Abbreviation by_key := (λ a b : A, fgt (key a) (key b)).
Abbreviation ascending := (StronglySorted (λ a b : A, fle (key a) (key b) = true)).

Lemma move_left_perm (x : A) (rp : list A) : move_left by_key x rp ≡ₚ x :: rp.
Proof.
  induction rp as [|y rp IH]; simpl; [done|].
  destruct (fgt (key x) (key y)); [|done]. rewrite IH. apply Permutation_swap.
Qed.

Lemma move_left_ascending (x : A) (rp : list A) :
  is_nan (key x) = false → Forall (λ y, is_nan (key y) = false) rp →
  ascending rp → ascending (move_left by_key x rp).
Proof.
  intros Hx Hnan Hsorted. induction Hsorted as [|y rp Hsorted IH Hy]; simpl.
  - repeat constructor.
  - apply Forall_cons in Hnan as [Hynan Hnan].
    destruct (fgt (key x) (key y)) eqn:Hless.
    + constructor; [by apply IH|]. rewrite move_left_perm.
      constructor; [by apply flt_fle|done].
    + assert (Hxy : fle (key x) (key y) = true) by (by apply fle_total).
      constructor; [by constructor|]. constructor; [done|].
      eapply Forall_impl; [exact Hy|]. intros z Hz. simpl in Hz. by eapply fle_trans.
Qed.

Lemma foldl_move_left (l acc : list A) :
  Forall (λ y, is_nan (key y) = false) l → Forall (λ y, is_nan (key y) = false) acc →
  ascending acc →
  ascending (foldl (λ rp x, move_left by_key x rp) acc l) ∧
  foldl (λ rp x, move_left by_key x rp) acc l ≡ₚ l ++ acc.
Proof.
  revert acc. induction l as [|x l IH]; intros acc Hl Hacc Hsorted; simpl; [done|].
  apply Forall_cons in Hl as [Hx Hl].
  destruct (IH (move_left by_key x acc)) as [Hs Hp]; [done| |by apply move_left_ascending|].
  - by rewrite move_left_perm, Forall_cons.
  - split; [done|]. rewrite Hp, move_left_perm. by rewrite Permutation_middle.
Qed.

Lemma ascending_last (l : list A) (x : A) :
  ascending (l ++ [x]) → Forall (λ y, fle (key y) (key x) = true) l.
Proof.
  induction l as [|y l IH]; simpl; [done|]. intros [Hs Hy]%StronglySorted_inv.
  constructor; [|by apply IH]. apply Forall_app in Hy as [_ Hx].
  by apply (Forall_singleton (λ b, fle (key y) (key b) = true)) in Hx.
Qed.

(** With no NaN among the keys, the sorted slice is a rearrangement that
    starts with an element of greatest key. *)
Lemma sort_Slice_first (l : list A) :
  Forall (λ y, is_nan (key y) = false) l →
  sort_Slice by_key l ≡ₚ l ∧
  ∀ r0 rest, sort_Slice by_key l = r0 :: rest →
    Forall (λ y, fle (key y) (key r0) = true) l.
Proof.
  intros Hnan. unfold sort_Slice.
  destruct (foldl_move_left l [] Hnan) as [Hs Hp]; [done|constructor|].
  rewrite app_nil_r in Hp. split; [by rewrite reverse_Permutation|].
  intros r0 rest Hrev. apply (f_equal reverse) in Hrev.
  rewrite reverse_involutive, reverse_cons in Hrev. rewrite Hrev in Hs, Hp.
  rewrite <- Hp. apply Forall_app. split; [by apply ascending_last|].
  apply Forall_singleton, fle_refl.
  assert (Hin : r0 ∈ l) by (rewrite <- Hp; set_solver).
  by apply (proj1 (Forall_forall _ _) Hnan).
Qed.

End sorting.

(** *** The scanner *)

(** While the lines fit, [Scan] hands them out one by one. *)
Lemma Scan_take (k : nat) (lines : list string) :
  Forall (λ line, fits line = true) (take k lines) →
  take k (Scan lines) = dropCR <$> take k lines.
Proof.
  revert lines. induction k as [|k IH]; intros [|line lines] Hfit; simpl; try done.
  simpl in Hfit. apply Forall_cons in Hfit as [-> Hfit]. simpl. f_equal. by apply IH.
Qed.

Lemma Scan_all (lines : list string) :
  Forall (λ line, fits line = true) lines → Scan lines = dropCR <$> lines.
Proof.
  induction 1 as [|line lines Hline _ IH]; simpl; [done|]. by rewrite Hline, IH.
Qed.

(** *** Reading the ranking file *)

Section ranking.
Context {CandidateQuery : Type} (zeroCandidateQuery : CandidateQuery).
Context (ReadFile : string → string * option error).
Context (ParseFloat : string → float64 + error).

Abbreviation read_rank := (read_rank zeroCandidateQuery ParseFloat).
Abbreviation getRanking := (getRanking zeroCandidateQuery ReadFile ParseFloat).

(** When the lines all parse and fit the candidates from position [i] on,
    the loop fills [ranks] at those positions, line by line, and nowhere
    else. *)
Lemma read_ranks_all (candidates : list CandidateQuery) (lines : list string)
    (scores : list float64) (i : nat) (ranks : list ranking) :
  Forall2 (λ text r, ParseFloat text = inl r) lines scores →
  (i + length lines ≤ length candidates)%nat → length ranks = length candidates →
  ∃ ranks', for_range (read_rank candidates) lines (i, ranks)
              = Next ((i + length lines)%nat, ranks') ∧
    length ranks' = length candidates ∧
    (∀ j, (j < i)%nat → ranks' !! j = ranks !! j) ∧
    (∀ j r c, scores !! j = Some r → candidates !! (i + j)%nat = Some c →
              ranks' !! (i + j)%nat = Some (mkRanking r c)).
Proof.
  intros Hparse. revert i ranks.
  induction Hparse as [|text r lines scores Htext _ IH]; intros i ranks Hfit Hlen.
  - exists ranks. simpl. rewrite Nat.add_0_r. split_and!; [done..|]. by intros j r c [=].
  - simpl in Hfit. simpl. rewrite Htext.
    destruct (lookup_lt_is_Some_2 candidates i) as [c Hc]; [lia|]. rewrite Hc.
    rewrite decide_True by lia.
    destruct (IH (Datatypes.S i) (<[i := mkRanking r c]> ranks)) as (ranks' & -> & Hlen' & Hold & Hnew);
      [lia|by rewrite length_insert|].
    exists ranks'. split_and!.
    + f_equal. f_equal. lia.
    + done.
    + intros j Hj. rewrite Hold by lia. apply list_lookup_insert_ne. lia.
    + intros [|j] r' c' Hr' Hc'.
      * simpl in Hr'. injection Hr' as <-. rewrite Nat.add_0_r in *.
        rewrite Hold by lia. rewrite list_lookup_insert_eq by lia. congruence.
      * simpl in Hr'. replace (i + Datatypes.S j)%nat with (Datatypes.S i + j)%nat in * by lia.
        by apply Hnew.
Qed.

(** A line that does not parse, within the candidates' range, ends the
    call with the parse error of the first such line. *)
Lemma read_ranks_failure (candidates : list CandidateQuery) (lines : list string)
    (i : nat) (ranks : list ranking) :
  Exists (λ text, ∃ e, ParseFloat text = inr e) lines →
  (i + length lines ≤ length candidates)%nat → length ranks = length candidates →
  ∃ text e, text ∈ lines ∧ ParseFloat text = inr e ∧
    for_range (read_rank candidates) lines (i, ranks)
      = Exit (Returns (zeroCandidateQuery, Some e)).
Proof.
  revert i ranks. induction lines as [|text lines IH]; intros i ranks Hbad Hfit Hlen.
  - by apply Exists_nil in Hbad.
  - simpl in Hfit. simpl. destruct (ParseFloat text) as [r|e] eqn:Htext.
    + apply Exists_cons in Hbad as [[e He]|Hbad]; [congruence|].
      destruct (lookup_lt_is_Some_2 candidates i) as [c Hc]; [lia|]. rewrite Hc.
      rewrite decide_True by lia.
      destruct (IH (Datatypes.S i) (<[i := mkRanking r c]> ranks)) as (text' & e & Hin & He & ->);
        [done|lia|by rewrite length_insert|].
      exists text', e. split_and!; [|done..]. by apply list_elem_of_further.
    + exists text, e. split_and!; [|done..]. apply list_elem_of_here.
Qed.

(** C7. For a ranking file that reads and holds one line per candidate,
    each line shorter than the scanner's [MaxScanTokenSize]: when every
    line parses as a float and none of the scores is a NaN, [getRanking]
    returns the candidate at a position whose score, the one on the line
    at the same position, is greatest among all the scores; when some line
    does not parse, it returns the parse error of such a line with the
    zero candidate. *)
Theorem getRanking_picks_maximum (filename : string) (candidates : list CandidateQuery)
    (b : string) :
  ReadFile filename = (b, None) →
  length (split_lines b) = length candidates →
  Forall (λ line, fits line = true) (split_lines b) →
  candidates ≠ [] →
  (∀ scores,
     Forall2 (λ line r, ParseFloat (dropCR line) = inl r) (split_lines b) scores →
     Forall (λ r, is_nan r = false) scores →
     ∃ k c r, candidates !! k = Some c ∧ scores !! k = Some r ∧
       Forall (λ r', fle r' r = true) scores ∧
       getRanking filename candidates = ([filename], Returns (c, None))) ∧
  (Exists (λ line, ∃ e, ParseFloat (dropCR line) = inr e) (split_lines b) →
     ∃ line e, line ∈ split_lines b ∧ ParseFloat (dropCR line) = inr e ∧
       getRanking filename candidates = ([filename], Returns (zeroCandidateQuery, Some e))).
Proof.
  intros Hread Hfile Hfit Hne.
  (* the scanner hands out every line of the file *)
  assert (Hscan : ScanLines b = dropCR <$> split_lines b) by (by apply Scan_all).
  assert (Hlines : length (ScanLines b) = length candidates).
  { by rewrite Hscan, length_fmap. }
  assert (Hlen0 : length candidates ≠ 0%nat) by (by destruct candidates).
  pose (ranks0 := replicate (length candidates) (mkRanking fzero zeroCandidateQuery)).
  assert (Hranks0 : length ranks0 = length candidates) by apply length_replicate.
  split.
  - intros scores Hfile_parse Hnan.
    assert (Hparse : Forall2 (λ text r, ParseFloat text = inl r) (ScanLines b) scores).
    { rewrite Hscan. by apply Forall2_fmap_l. }
    destruct (read_ranks_all candidates (ScanLines b) scores 0 ranks0 Hparse)
      as (ranks & Hloop & Hlen & _ & Hfilled); [lia|done|].
    pose proof (Forall2_length _ _ _ Hparse) as Hscores.
    assert (Hat : ∀ j x, ranks !! j = Some x →
              scores !! j = Some (rank x) ∧ candidates !! j = Some (rquery x)).
    { intros j x Hx. pose proof (lookup_lt_Some _ _ _ Hx) as Hj.
      destruct (lookup_lt_is_Some_2 scores j) as [r Hr]; [lia|].
      destruct (lookup_lt_is_Some_2 candidates j) as [c Hc]; [lia|].
      specialize (Hfilled j r c Hr Hc). simpl in Hfilled.
      rewrite Hfilled in Hx. by injection Hx as <-. }
    assert (Hranksnan : Forall (λ x, is_nan (rank x) = false) ranks).
    { apply Forall_lookup. intros j x Hx. destruct (Hat j x Hx) as [Hr _].
      by apply (proj1 (Forall_lookup _ _) Hnan j). }
    destruct (sort_Slice_first rank ranks Hranksnan) as [Hperm Hmax].
    destruct (sort_Slice (λ ri rj, fgt (rank ri) (rank rj)) ranks) as [|r0 rest] eqn:Hsorted.
    { apply Permutation_length in Hperm. simpl in Hperm. lia. }
    assert (Hin : r0 ∈ ranks) by (rewrite <- Hperm; apply list_elem_of_here).
    apply list_elem_of_lookup in Hin as [k Hk]. destruct (Hat k r0 Hk) as [Hr Hc].
    exists k, (rquery r0), (rank r0). split_and!; [done..| |].
    + apply Forall_lookup. intros j r' Hr'.
      destruct (lookup_lt_is_Some_2 ranks j) as [x Hx].
      { apply lookup_lt_Some in Hr'. lia. }
      destruct (Hat j x Hx) as [Hrx _]. rewrite Hr' in Hrx. injection Hrx as ->.
      apply (proj1 (Forall_lookup _ _) (Hmax r0 rest eq_refl) j x Hx).
    + unfold Learning.getRanking. rewrite decide_False by done. rewrite Hread.
      fold ranks0. rewrite Hloop. by rewrite Hsorted.
  - intros Hfile_bad.
    assert (Hbad : Exists (λ text, ∃ e, ParseFloat text = inr e) (ScanLines b)).
    { rewrite Hscan. by apply Exists_fmap. }
    destruct (read_ranks_failure candidates (ScanLines b) 0 ranks0 Hbad)
      as (text & e & Hin & He & Hloop); [lia|done|].
    rewrite Hscan in Hin. apply list_elem_of_fmap in Hin as (line & -> & Hin).
    exists line, e. split_and!; [done..|].
    unfold Learning.getRanking. rewrite decide_False by done. rewrite Hread.
    fold ranks0. by rewrite Hloop.
Qed.

(** C10. With no candidates (a nil slice and an empty one are the same
    list here) [getRanking] returns the zero value and a nil error, and
    has read no file: whatever the file system holds under [filename], and
    whatever the parser makes of it, plays no part. *)
Theorem getRanking_no_candidates (filename : string) :
  getRanking filename [] = ([], Returns (zeroCandidateQuery, None)).
Proof. reflexivity. Qed.

End ranking.

Import Scenario.

Lemma Execute_cache_miss_not_surfaced_witness :
  Select (S := nat) 0%nat 5%nat [6%nat; 5%nat] = (2%nat, 1%nat, Some ErrCacheMiss) ∧
  chain_loop 0%nat one_variation chain 3 5%nat 0%nat false
    = chain_loop 0%nat one_variation chain 2 2%nat 1%nat false ∧
  Execute 0%nat (λ q : nat, q) one_variation chain 5%nat 3 = Some (2%nat, None).
Proof.
  destruct (Execute_cache_miss_not_surfaced 0%nat (λ q : nat, q) one_variation chain 2
              5%nat 0%nat [6%nat] 2%nat 1%nat (Some ErrCacheMiss) eq_refl
              ltac:(discriminate) eq_refl) as (Hgo & _ & _).
  destruct (Hgo (or_introl eq_refl)) as [Heq _].
  split; [reflexivity|]. split; [exact Heq|reflexivity].
Defined.

Lemma getRanking_picks_maximum_witness :
  disk "ranks" = (ranks_file, None) ∧
  split_lines ranks_file = ["1"; "3"; "2"] ∧
  ∃ k c r, [7%nat; 8%nat; 9%nat] !! k = Some c ∧
    [of_Z 1; of_Z 3; of_Z 2] !! k = Some r ∧
    Forall (λ r', fle r' r = true) [of_Z 1; of_Z 3; of_Z 2] ∧
    getRanking 0%nat disk parse_number "ranks" [7%nat; 8%nat; 9%nat]
      = (["ranks"], Returns (c, None)).
Proof.
  destruct (getRanking_picks_maximum 0%nat disk parse_number "ranks"
              [7%nat; 8%nat; 9%nat] ranks_file eq_refl eq_refl
              ltac:(repeat constructor) ltac:(discriminate))
    as [Hmax _].
  split; [reflexivity|]. split; [reflexivity|].
  apply Hmax.
  - repeat constructor.
  - repeat constructor.
Defined.

(** C7 as first stated, for every file with one score per line, fails
    in two ways. With the scores 1, NaN and 2 the first candidate is
    returned although the third has the greater score: the NaN compares
    false with both neighbours and the sort moves nothing. With a first
    score written on 65536 bytes the scanner hands out no line at all, so
    that the zero candidate is returned without error although both lines
    are numbers. *)
Lemma getRanking_misses_maximum :
  (split_lines (Scenario2.nan_ranks "ranks").1 = ["1"; "NaN"; "2"] ∧
   Scenario2.parse_score "1" = inl (of_Z 1) ∧
   Scenario2.parse_score "2" = inl (of_Z 2) ∧
   flt (of_Z 1) (of_Z 2) = true ∧
   getRanking 0%nat Scenario2.nan_ranks Scenario2.parse_score "ranks" [7%nat; 8%nat; 9%nat]
     = (["ranks"], Returns (7%nat, None))) ∧
  (bool_decide (split_lines (Scenario2.long_ranks "ranks").1 = [Scenario2.long_score; "1"])
     = true ∧
   Z.of_nat (String.length Scenario2.long_score) = MaxScanTokenSize ∧
   Scenario2.parse_score Scenario2.long_score = inl (of_Z 5) ∧
   Scenario2.parse_score "1" = inl (of_Z 1) ∧
   getRanking 0%nat Scenario2.long_ranks Scenario2.parse_score "ranks" [7%nat; 8%nat]
     = (["ranks"], Returns (0%nat, None))).
Proof. split; split_and!; vm_compute; reflexivity. Qed.

(** The aligned file ranks the second candidate first; a malformed line
    gives the parse error instead of a candidate; a file with more lines
    than candidates runs off the end of the slice. *)
Example getRanking_on_disk :
  getRanking 0%nat disk parse_number "ranks" [7%nat; 8%nat; 9%nat]
    = (["ranks"], Returns (8%nat, None)) ∧
  getRanking 0%nat damaged_disk parse_number "ranks" [7%nat; 8%nat; 9%nat]
    = (["ranks"], Returns (0%nat, Some (ErrOther "invalid syntax"))) ∧
  getRanking 0%nat disk parse_number "ranks" [7%nat; 8%nat]
    = (["ranks"], Panics "index out of range").
Proof. by vm_compute. Qed.

End LearningFacts.

(** ** More on the oracle selector and its chain *)

Module RewriteMore.
Import Eval Rewrite Float64Facts LoopFacts RewriteFacts.

Section oracle.
Context `{Combinator}.

(** [q] descends from [q0]: same name, same topic, and the chain of [q0]
    at the start of its own. *)
Abbreviation descends q0 q :=
  (pqName (tqPipelineQuery q) = pqName (tqPipelineQuery q0) ∧
   pqTopic (tqPipelineQuery q) = pqTopic (tqPipelineQuery q0) ∧
   tqQueryChain q0 `prefix_of` tqQueryChain q).

(** Whatever leaves [Select] early carries an error, and the query it
    carries is the zero value or a descendant. *)
Abbreviation left_early zero q0 :=
  (λ r : selected, is_Some r.2 ∧ (r.1.1 = zero ∨ descends q0 r.1.1)).

Lemma visit_descends zero q0 st applied :
  descends q0 (l_query st) →
  match visit st applied with
  | Next st' => descends q0 (l_query st')
  | Exit r => left_early zero q0 r
  end.
Proof.
  intros (Hn & Ht & Hc). unfold visit.
  destruct (NewLogicalTree _ _ _) as [[tree seen'] [e|]]; simpl.
  - split; [by eexists|]. by right.
  - destruct (_ && _ && _); simpl; [|done]. split_and!; [done..|].
    etrans; [exact Hc|]. by apply prefix_app_r.
Qed.

Lemma transform_descends zero q0 st transformation :
  descends q0 (l_query st) →
  match transform zero st transformation with
  | Next st' => descends q0 (l_query st')
  | Exit r => left_early zero q0 r
  end.
Proof.
  intros Hd. unfold transform. destruct (Apply _ _) as [queries [e|]].
  - simpl. split; [by eexists|]. by left.
  - apply (for_range_invariant (λ st, descends q0 (l_query st)) (left_early zero q0));
      [|done].
    intros ???. by apply visit_descends.
Qed.

(** What [Select] returns is an error with the zero query or a
    descendant, or a descendant and no error. *)
Lemma Select_descends (zero : TransformedQuery) (oc : OracleQueryChainCandidateSelector)
    (query : TransformedQuery) (transformations : list Transformation) :
  let r := Select zero oc query transformations in
  (r.2 = None → descends query r.1.1) ∧ (r.1.1 = zero ∨ descends query r.1.1).
Proof.
  cbv zeta. unfold Select.
  assert (Hbase : match baseline (enter oc) query with
                  | Next _ => True
                  | Exit r => left_early zero query r
                  end).
  { unfold baseline. destruct (feq _ _); [|done].
    destruct (NewLogicalTree _ _ _) as [[tree seen'] [e|]]; [|done].
    simpl. split; [by eexists|]. by right. }
  destruct (baseline (enter oc) query) as [oc1|r].
  - pose proof (for_range_invariant (λ st, descends query (l_query st))
                  (left_early zero query) (transform zero)
                  (λ st t, transform_descends zero query st t) transformations
                  (mkLocals oc1 (bestRelRet oc1) (bestRet oc1) query)
                  ltac:(done)) as Hloop.
    destruct (for_range _ _ _) as [st|r]; simpl.
    + split; [done|by right].
    + destruct Hloop as [[e He] Hq]. split; [by rewrite He|done].
  - destruct Hbase as [[e He] Hq]. split; [by rewrite He|done].
Qed.

(** X2. [Select] never renames a query and never rewrites its history:
    a query it returns without error has the name and the topic of the
    query passed in and a chain that starts with the chain passed in; a
    query returned with an error is such a query or the zero value. *)
Theorem Select_keeps_name_topic_lineage (zero : TransformedQuery)
    (oc : OracleQueryChainCandidateSelector) (query : TransformedQuery)
    (transformations : list Transformation) :
  let r := Select zero oc query transformations in
  (r.2 = None →
     pqName (tqPipelineQuery r.1.1) = pqName (tqPipelineQuery query) ∧
     pqTopic (tqPipelineQuery r.1.1) = pqTopic (tqPipelineQuery query) ∧
     tqQueryChain query `prefix_of` tqQueryChain r.1.1) ∧
  (r.1.1 = zero ∨
     pqName (tqPipelineQuery r.1.1) = pqName (tqPipelineQuery query) ∧
     pqTopic (tqPipelineQuery r.1.1) = pqTopic (tqPipelineQuery query) ∧
     tqQueryChain query `prefix_of` tqQueryChain r.1.1).
Proof.
  cbv zeta. pose proof (Select_descends zero oc query transformations) as [Hok Hany].
  split.
  - intros Hnone. by apply Hok.
  - destruct Hany as [Hz|Hd]; [by left|by right].
Qed.

(** The candidate loops either have left query and best values as they
    were at the start [oc1], [q0] of the round, or have a longer chain and
    a best NumRelRet above 0. *)
Abbreviation settled oc1 q0 :=
  (λ st : locals,
     mirrored st ∧
     ((l_query st = q0 ∧ bestRelRet (l_oc st) = bestRelRet oc1 ∧
       bestRet (l_oc st) = bestRet oc1) ∨
      (Nat.lt (length (tqQueryChain q0)) (length (tqQueryChain (l_query st))) ∧
       fgt (bestRelRet (l_oc st)) fzero = true))).

Lemma visit_settled oc1 q0 st applied :
  settled oc1 q0 st →
  match visit st applied with
  | Next st' => settled oc1 q0 st'
  | Exit r => is_Some r.2
  end.
Proof.
  intros [Hmir Hcase]. unfold visit.
  destruct (NewLogicalTree _ _ _) as [[tree seen'] [e|]]; simpl; [by eexists|].
  destruct (_ && _ && _) eqn:Htest; simpl.
  - apply andb_true_iff in Htest as [[Hpos _]%andb_true_iff _].
    split; [done|]. right. split; [|done].
    rewrite length_app. simpl. destruct Hcase as [(-> & _)|[Hlen _]]; lia.
  - split; [exact Hmir|]. exact Hcase.
Qed.

Lemma transform_settled zero oc1 q0 st transformation :
  settled oc1 q0 st →
  match transform zero st transformation with
  | Next st' => settled oc1 q0 st'
  | Exit r => is_Some r.2
  end.
Proof.
  intros Hs. unfold transform. destruct (Apply _ _) as [queries [e|]]; [by eexists|].
  apply (for_range_invariant (settled oc1 q0) (λ r : selected, is_Some r.2)); [|done].
  intros ???. by apply visit_settled.
Qed.

(** X3. A seeded selector's round that ends without error has either
    accepted nothing, and then hands back the query and both best values
    unchanged and, these being numbers, a state that says stop (one round
    without improvement ends the chain); or it has lengthened the chain,
    and then the best NumRelRet it hands back is above 0. *)
Theorem Select_round_without_acceptance_stops (zero : TransformedQuery)
    (oc : OracleQueryChainCandidateSelector) (query : TransformedQuery)
    (transformations : list Transformation) :
  feq (minResults oc) fzero = false →
  let r := Select zero oc query transformations in
  r.2 = None →
  (r.1.1 = query ∧
   bestRelRet r.1.2 = bestRelRet oc ∧ bestRet r.1.2 = bestRet oc ∧
   (is_nan (bestRelRet oc) = false → is_nan (bestRet oc) = false →
    StoppingCriteria r.1.2 = true)) ∨
  ((length (tqQueryChain query) < length (tqQueryChain r.1.1))%nat ∧
   fgt (bestRelRet r.1.2) fzero = true).
Proof.
  intros Hseeded r Hnone.
  pose proof (Select_bookkept zero oc query transformations) as (_ & _ & Hprev & _).
  fold r in Hprev. subst r. revert Hnone Hprev. unfold Select, baseline.
  replace (minResults (enter oc)) with (minResults oc)
    by (unfold enter; simpl; by destruct (seen oc)).
  rewrite Hseeded.
  assert (Hstart : settled (enter oc) query
            (mkLocals (enter oc) (bestRelRet (enter oc)) (bestRet (enter oc)) query)).
  { split; [done|]. by left. }
  pose proof (for_range_invariant (settled (enter oc) query)
                (λ r : selected, is_Some r.2) (transform zero)
                (λ st t, transform_settled zero (enter oc) query st t)
                transformations _ Hstart) as Hloop.
  destruct (for_range _ _ _) as [st|r]; simpl.
  - intros _ Hprev. destruct Hloop as [_ [(Hq & Hrr & Hr)|Hgrown]]; [left|by right].
    assert (Hrr' : bestRelRet (l_oc st) = bestRelRet oc).
    { rewrite Hrr. unfold enter. simpl. by destruct (seen oc). }
    assert (Hr' : bestRet (l_oc st) = bestRet oc).
    { rewrite Hr. unfold enter. simpl. by destruct (seen oc). }
    split_and!; [done..|]. intros Hn1 Hn2.
    apply StoppingCriteria_true_iff. right. rewrite Hrr'. split; [done|].
    rewrite Hprev, Hr', feq_self, Hn2. done.
  - intros Hnone. destruct Hloop as [e He]. by rewrite He in Hnone.
Qed.

Lemma enter_keeps (oc : OracleQueryChainCandidateSelector) :
  minResults (enter oc) = minResults oc ∧ ss (enter oc) = ss oc ∧
  qrels (enter oc) = qrels oc ∧ seen_map (enter oc) = seen_map oc ∧
  bestRelRet (enter oc) = bestRelRet oc ∧ bestRet (enter oc) = bestRet oc.
Proof. destruct oc as [? ? ? ? ? ? ? ? [m|]]; by cbv. Qed.

(** X4. The call that takes the baseline (minResults is 0): when the
    unmodified query fails at the statistics source, [Select] returns that
    error with the query and both best values untouched; when it
    resolves, the state handed back, by whatever path, has the number of
    baseline results as minResults, a bestRelRet that is the baseline's
    or at least it, and a bestRet that is the baseline's or at most it. *)
Theorem Select_takes_baseline (zero : TransformedQuery)
    (oc : OracleQueryChainCandidateSelector) (query : TransformedQuery)
    (transformations : list Transformation) tree seen' err :
  feq (minResults oc) fzero = true →
  NewLogicalTree (tqPipelineQuery query) (ss oc) (seen_map oc) = (tree, seen', err) →
  let r := Select zero oc query transformations in
  let results := Results tree (tqPipelineQuery query) (pqName (tqPipelineQuery query)) in
  let evaluation := Evaluate oracle_evaluators results (qrels oc)
                      (pqTopic (tqPipelineQuery query)) in
  match err with
  | Some e =>
      r.2 = Some e ∧ r.1.1 = query ∧
      bestRelRet r.1.2 = bestRelRet oc ∧ bestRet r.1.2 = bestRet oc
  | None =>
      minResults r.1.2 = of_Z (Z.of_nat (length results)) ∧
      (bestRelRet r.1.2 = index evaluation (Name NumRelRet) ∨
       fle (index evaluation (Name NumRelRet)) (bestRelRet r.1.2) = true) ∧
      (bestRet r.1.2 = index evaluation (Name NumRet) ∨
       fle (bestRet r.1.2) (index evaluation (Name NumRet)) = true)
  end.
Proof.
  intros Hunseeded Htree r results evaluation. subst r. unfold Select, baseline.
  destruct (enter_keeps oc) as (Hm & Hss & Hq & Hseen & Hrr & Hr).
  rewrite Hm, Hss, Hseen.
  rewrite Hunseeded, Htree. destruct err as [e|]; simpl.
  - by rewrite <- Hrr, <- Hr.
  - rewrite Hq. fold results evaluation.
    set (oc1 := set_bestRet _ _).
    assert (Hstart : mirrored (mkLocals oc1 (bestRelRet oc1) (bestRet oc1) query) ∧
              kept_up (index evaluation (Name NumRelRet)) (index evaluation (Name NumRet))
                      (of_Z (Z.of_nat (length results))) oc1).
    { split; [done|]. split_and!; [by left|by left|done]. }
    pose proof (for_range_invariant
                  (λ st, mirrored st ∧ kept_up (index evaluation (Name NumRelRet))
                           (index evaluation (Name NumRet))
                           (of_Z (Z.of_nat (length results))) (l_oc st))
                  (λ r : selected, kept_up (index evaluation (Name NumRelRet))
                           (index evaluation (Name NumRet))
                           (of_Z (Z.of_nat (length results))) r.1.2)
                  (transform zero)
                  (λ st t Hst, transform_kept_up zero _ _ _ st t (proj1 Hst) (proj2 Hst))
                  transformations _ Hstart) as Hloop.
    destruct (for_range _ _ _) as [st|r]; simpl.
    + destruct Hloop as [_ (Hb & Ha & Hmin)]. done.
    + destruct Hloop as (Hb & Ha & Hmin). done.
Qed.

(** A result reached with some rounds is the result with more. *)
Lemma rounds_more_fuel (zero : TransformedQuery) (transformations : list Transformation)
    (n k : nat) (tq : TransformedQuery) (sel : OracleQueryChainCandidateSelector)
    (stop : bool) r :
  rounds zero transformations n tq sel stop = Some r →
  rounds zero transformations (n + k) tq sel stop = Some r.
Proof.
  revert tq sel stop. induction n as [|n IH]; intros tq sel stop; simpl.
  - destruct stop; [|done]. by destruct k.
  - destruct stop; [done|].
    destruct (Select zero sel tq transformations) as [[tq' sel'] [e|]]; [done|]. apply IH.
Qed.

(** X1. Run from a fresh oracle selector, [Execute] comes to an end
    within five rounds, whatever the transformations produce and however
    the candidates score: five rounds give a result, and any larger number
    of rounds gives that same result. *)
Theorem Execute_five_rounds_suffice (zero : TransformedQuery)
    (transformations : list Transformation) (source : StatisticsSource)
    (file : QrelsFile) (query : PipelineQuery) (n : nat) :
  (5 ≤ n)%nat →
  let qc := mkQueryChain transformations (NewOracleQueryChainCandidateSelector source file) in
  is_Some (Execute zero qc query 5) ∧ Execute zero qc query n = Execute zero qc query 5.
Proof.
  intros Hn qc.
  destruct (Execute_halts_within_five zero transformations source file query) as [r Hr].
  fold qc in Hr. split; [by exists r|]. rewrite Hr.
  replace n with (5 + (n - 5))%nat by lia. unfold Execute in *. by apply rounds_more_fuel.
Qed.

Lemma rounds_outcome (zero : TransformedQuery) (transformations : list Transformation)
    (q0 : TransformedQuery) (n : nat) (tq : TransformedQuery)
    (sel : OracleQueryChainCandidateSelector) (stop : bool) r err :
  descends q0 tq →
  rounds zero transformations n tq sel stop = Some (r, err) →
  match err with
  | Some _ => r = zero
  | None => descends q0 r
  end.
Proof.
  revert tq sel stop. induction n as [|n IH]; intros tq sel stop Hd; simpl.
  - destruct stop; [|done]. by intros [= <- <-].
  - destruct stop; [by intros [= <- <-]|].
    pose proof (Select_descends zero sel tq transformations) as [Hok _].
    destruct (Select zero sel tq transformations) as [[tq' sel'] [e|]]; [by intros [= <- <-]|].
    apply IH. destruct (Hok eq_refl) as (Hn & Ht & Hc). simpl in *.
    destruct Hd as (Hn0 & Ht0 & Hc0). split_and!; [congruence..|by etrans].
Qed.

(** X7. What [Execute] can end with: an error comes with the zero
    query; a query that comes without error has the name and the topic of
    the query the chain was started on. *)
Theorem Execute_outcome (zero : TransformedQuery) (qc : QueryChain) (query : PipelineQuery)
    (n : nat) (tq : TransformedQuery) (err : option error) :
  Execute zero qc query n = Some (tq, err) →
  match err with
  | Some _ => tq = zero
  | None => pqName (tqPipelineQuery tq) = pqName query ∧
            pqTopic (tqPipelineQuery tq) = pqTopic query
  end.
Proof.
  unfold Execute. intros Hrun.
  apply (rounds_outcome _ _ (mkTransformedQuery [] query)) in Hrun; [|done].
  destruct err; [done|]. by destruct Hrun as (? & ? & _).
Qed.

End oracle.

Import Scenario.

Lemma Select_round_without_acceptance_stops_witness :
  feq (minResults round2.1.2) fzero = false ∧
  (Select no_query round2.1.2 round2.1.1 [narrowing]).2 = None ∧
  StoppingCriteria (Select no_query round2.1.2 round2.1.1 [narrowing]).1.2 = true.
Proof.
  assert (Hseeded : feq (minResults round2.1.2) fzero = false) by (by vm_compute).
  assert (Hnone : (Select no_query round2.1.2 round2.1.1 [narrowing]).2 = None)
    by reflexivity.
  split; [exact Hseeded|]. split; [exact Hnone|].
  destruct (Select_round_without_acceptance_stops no_query round2.1.2 round2.1.1
              [narrowing] Hseeded Hnone) as [(_ & _ & _ & Hstop)|[Hlen _]].
  - apply Hstop; by vm_compute.
  - exfalso. revert Hlen. vm_compute. lia.
Defined.

Lemma Select_takes_baseline_witness :
  minResults (Select no_query fresh seed_query [narrowing]).1.2 = of_Z 3 ∧
  fle (of_Z 1) (bestRelRet (Select no_query fresh seed_query [narrowing]).1.2) = true.
Proof.
  pose proof (Select_takes_baseline no_query fresh seed_query [narrowing]
                ["1"; "4"; "5"] ∅ None eq_refl eq_refl) as (Hmin & Hrr & _).
  split; [exact Hmin|].
  destruct Hrr as [Heq|Hle]; [|exact Hle]. rewrite Heq. by vm_compute.
Defined.

Lemma Execute_five_rounds_suffice_witness :
  Execute no_query (mkQueryChain [narrowing] fresh) (numbered 0) 7
    = Execute no_query (mkQueryChain [narrowing] fresh) (numbered 0) 5.
Proof.
  apply (Execute_five_rounds_suffice no_query [narrowing] tt judged (numbered 0) 7). lia.
Defined.

Lemma Execute_outcome_witness :
  Execute no_query (mkQueryChain [narrowing] fresh) (numbered 0) 5
    = Some (mkTransformedQuery [0%nat; 1%nat] (numbered 2), None) ∧
  pqName (numbered 2) = pqName (numbered 0) ∧ pqTopic (numbered 2) = pqTopic (numbered 0).
Proof.
  assert (Hrun : Execute no_query (mkQueryChain [narrowing] fresh) (numbered 0) 5
                 = Some (mkTransformedQuery [0%nat; 1%nat] (numbered 2), None))
    by reflexivity.
  split; [exact Hrun|].
  exact (Execute_outcome no_query _ (numbered 0) 5 _ None Hrun).
Defined.

Lemma Select_keeps_name_topic_lineage_witness :
  let r := Select no_query fresh seed_query [narrowing] in
  r.2 = None ∧
  pqName (tqPipelineQuery r.1.1) = pqName (tqPipelineQuery seed_query) ∧
  tqQueryChain seed_query `prefix_of` tqQueryChain r.1.1.
Proof.
  cbv zeta.
  destruct (Select_keeps_name_topic_lineage no_query fresh seed_query [narrowing])
    as [Hok _].
  split; [reflexivity|]. destruct (Hok eq_refl) as (Hn & _ & Hc). by split.
Defined.

End RewriteMore.

(** ** More on evaluation *)

Module EvalMore.
Import Eval EvalFacts.

(** X14. Whatever the result list, empty or not, [Evaluate] scores the
    list it is given against the judgments of the topic (no judgments when
    the topic is unknown), and of several evaluators with one name the
    last in the list decides the entry: an evaluator that no later one
    shares its name with finds its own score under its name. *)
Theorem Evaluate_last_name_wins (before later : list Evaluator) (e : Evaluator)
    (results : ResultList) (qrels : QrelsFile) (topic : string) :
  Name e ∉ Name <$> later →
  Evaluate (before ++ e :: later) results qrels topic !! Name e
    = Some (score e results (default ∅ (Qrels qrels !! topic))).
Proof.
  intros Hlater.
  assert (Hsame : Evaluate (before ++ e :: later) results qrels topic
            = score_all (before ++ e :: later) results
                (default ∅ (Qrels qrels !! topic)) ∅).
  { unfold Evaluate. by destruct results. }
  rewrite Hsame. clear Hsame. revert Hlater.
  induction later as [|e' later IH] using rev_ind; intros Hlater.
  - rewrite score_all_snoc. by rewrite lookup_insert_eq.
  - rewrite fmap_app in Hlater. apply not_elem_of_app in Hlater as [Hlater Hne].
    replace (before ++ e :: later ++ [e']) with ((before ++ e :: later) ++ [e'])
      by (by rewrite <- app_assoc).
    rewrite score_all_snoc, lookup_insert_ne; [by apply IH|].
    intros Heq. apply Hne. simpl. rewrite Heq. apply list_elem_of_here.
Qed.

Lemma Evaluate_last_name_wins_witness :
  Evaluate [mkEvaluator "NumRet" (λ _ _, fminus1); Scenario.num_ret; Scenario.num_rel]
    [Scenario.doc "1"; Scenario.doc "4"] Scenario.judged "T1" !! "NumRet" = Some (of_Z 2).
Proof.
  apply (Evaluate_last_name_wins [mkEvaluator "NumRet" (λ _ _, fminus1)] [Scenario.num_rel]
           Scenario.num_ret).
  simpl. intros Hin%list_elem_of_singleton. discriminate.
Defined.

End EvalMore.

(** ** More on the objective formulator *)

Module FormulationMore.
Import Eval Formulation LoopFacts.

Section objective.
Context {CQR Documents Terms BackgroundCollection EntrezStatisticsSource DataMarshaler : Type}.
Context (fetchDocuments : list Z → EntrezStatisticsSource → Documents * option error).
Context (derive : @ObjectiveFormulator CQR Documents Terms BackgroundCollection
                    EntrezStatisticsSource →
                  Terms → Documents → Documents → BackgroundCollection →
                  CQR * CQR * option error).
Context (MakeQrels : Documents → DataMarshaler).

Lemma identify_panics (rels : list Qrel) (st : list Z * list Qrel) :
  Exists (λ rel, 0 < qScore rel ∧ Atoi (qDocId rel) = None) rels →
  ∃ msg, for_range identify rels st = Exit msg.
Proof.
  intros Hbad. revert st. induction Hbad as [rel rels [Hpos Hnum]|rel rels _ IH];
    intros [docs nonrel]; simpl.
  - rewrite (proj2 (Z.ltb_lt 0 (qScore rel)) Hpos), Hnum. by eexists.
  - destruct (0 <? qScore rel); [|apply IH].
    destruct (Atoi (qDocId rel)); [apply IH|by eexists].
Qed.

(** X15. One relevant judgment whose document id is not a number makes
    [Formulate] panic, however many relevant studies there are: the ids
    are parsed before the number of relevant studies is looked at. *)
Theorem Formulate_panics_on_bad_id
    (o : @ObjectiveFormulator CQR Documents Terms BackgroundCollection EntrezStatisticsSource)
    (id : string) (rel : Qrel) :
  qrels o !! id = Some rel → 0 < qScore rel → Atoi (qDocId rel) = None →
  ∃ msg, Formulate fetchDocuments derive MakeQrels o = Panics msg.
Proof.
  intros Hrel Hpos Hnum. unfold Formulate.
  destruct (identify_panics (snd <$> map_to_list (qrels o)) ([], [])) as [msg ->];
    [|by eexists].
  apply Exists_exists. exists rel. split; [|done].
  apply list_elem_of_fmap. exists (id, rel). split; [done|]. by apply elem_of_map_to_list.
Qed.

(** X16. What [Formulate] hands back when it returns: either an error
    with no query and no supplemental data, or no error with exactly two
    queries and the one supplemental entry "objective" holding
    "unseen.qrels". *)
Theorem Formulate_returns_two_queries_or_error
    (o : @ObjectiveFormulator CQR Documents Terms BackgroundCollection EntrezStatisticsSource)
    (queries : list CQR) (sups : list (SupplementalData DataMarshaler)) (err : option error) :
  Formulate fetchDocuments derive MakeQrels o = Returns (queries, sups, err) →
  match err with
  | Some _ => queries = [] ∧ sups = []
  | None => length queries = 2%nat ∧
            ∃ unseen, sups = [mkSupplementalData "objective" [mkData "unseen.qrels" unseen]]
  end.
Proof.
  unfold Formulate.
  destruct (for_range identify _ _) as [[docs nonrel]|msg]; [|done].
  destruct (length docs <=? 50)%nat; [by intros [= <- <- <-]|].
  destruct (fetchDocuments docs (s o)) as [test [e|]]; [done|].
  destruct (splitter o test) as [[dev val] unseen].
  destruct (analyser o dev) as [devTerms [e|]]; [done|].
  destruct (derive o devTerms dev val (population o)) as [[q1 q2] _].
  destruct (for_range post_process _ _) as [[q1' q2']|e].
  - intros [= <- <- <-]. split; [done|]. by eexists.
  - by intros [= <- <- <-].
Qed.

End objective.

Import Scenario.

Lemma Formulate_panics_on_bad_id_witness :
  ∃ msg, Formulation.Formulate (DataMarshaler := list Z)
           (λ docs _, (docs, None)) (λ _ _ _ _ _, (1%nat, 2%nat, None)) (λ d, d)
           (mkObjectiveFormulator 0 "folder" "dates" "types" "url" ("q", "T1", 0%nat) tt
              {[ "PMC1" := mkQrel "T1" "0" "PMC1" 1 ]} [20] [] [] tt
              (λ d, (d, [], [])) (λ _, (tt, None)) []) = Panics msg.
Proof.
  apply (Formulate_panics_on_bad_id _ _ _ _ "PMC1" (mkQrel "T1" "0" "PMC1" 1)).
  - reflexivity.
  - reflexivity.
  - reflexivity.
Defined.

Lemma Formulate_returns_two_queries_or_error_witness :
  formulate 51 =
    Returns ([1%nat; 2%nat], [mkSupplementalData "objective" [mkData "unseen.qrels" []]], None) ∧
  length [1%nat; 2%nat] = 2%nat.
Proof.
  assert (Hrun : formulate 51 = Returns ([1%nat; 2%nat],
            [mkSupplementalData "objective" [mkData "unseen.qrels" []]], None))
    by (by vm_compute).
  split; [exact Hrun|].
  exact (proj1 (Formulate_returns_two_queries_or_error _ _ _ _ _ _ None Hrun)).
Defined.

End FormulationMore.

(** ** More on the query chain and the ranking file *)

Module LearningMore.
Import Learning Float64Facts LoopFacts LearningFacts.

Section chain.
Context {CandidateQuery Query Transformation Measurement
         StatisticsSource MeasurementExecutor : Type}.
Context (zeroCandidateQuery : CandidateQuery).
Context (NewCandidateQuery : Query → CandidateQuery).
Context (Variations : CandidateQuery → StatisticsSource → MeasurementExecutor →
                      list Measurement → list Transformation →
                      list CandidateQuery * option error).
Context {S : Type} `{!QueryChainCandidateSelector (CandidateQuery := CandidateQuery) S}.

Lemma chain_loop_error_zero (qc : QueryChain S) fuel cq sel stop r e :
  chain_loop zeroCandidateQuery Variations qc fuel cq sel stop = Some (r, Some e) →
  r = zeroCandidateQuery.
Proof.
  revert cq sel stop. induction fuel as [|fuel IH]; intros cq sel stop; simpl.
  - by destruct stop.
  - destruct stop; [done|].
    destruct (Variations cq _ _ _ _) as [candidates [e1|]]; [by intros [= <- _]|].
    destruct (decide (length candidates = 0%nat)); [done|].
    destruct (Select sel cq (candidates ++ [cq])) as [[cq' sel'] [e1|]]; [|apply IH].
    destruct (decide (e1 ≠ ErrCacheMiss)); [by intros [= <- _]|apply IH].
Qed.

(** X8. Whenever [Execute] ends with an error, in whatever round and
    whether the error is of [Variations] or of [Select], the candidate
    that comes with it is the zero value: no partly refined candidate is
    handed out alongside an error. *)
Theorem Execute_error_comes_with_zero (qc : QueryChain S) (q : Query) (fuel : nat)
    (r : CandidateQuery) (e : error) :
  Execute zeroCandidateQuery NewCandidateQuery Variations qc q fuel = Some (r, Some e) →
  r = zeroCandidateQuery.
Proof. unfold Execute. apply chain_loop_error_zero. Qed.

End chain.

(** *** Sorting, whatever the comparison *)

Section sorting.
Context {A : Type} (less : A → A → bool).

Lemma move_left_rearranges (x : A) (rp : list A) : move_left less x rp ≡ₚ x :: rp.
Proof.
  induction rp as [|y rp IH]; simpl; [done|].
  destruct (less x y); [|done]. rewrite IH. apply Permutation_swap.
Qed.

(** [sort.Slice] rearranges: it neither drops nor invents an element,
    even for a comparison that is no order. *)
Lemma sort_Slice_rearranges (l : list A) : sort_Slice less l ≡ₚ l.
Proof.
  unfold sort_Slice. rewrite reverse_Permutation.
  assert (Hgen : ∀ acc, foldl (λ rp x, move_left less x rp) acc l ≡ₚ l ++ acc).
  { induction l as [|x l IH]; intros acc; simpl; [done|].
    rewrite IH, move_left_rearranges. by rewrite Permutation_middle. }
  rewrite Hgen. by rewrite app_nil_r.
Qed.

End sorting.

Lemma flt_not_fle (a b : float64) : flt a b = true → fle b a = false.
Proof.
  unfold flt, fle, SFltb, SFleb.
  destruct a as [sa|sa| |sa ma ea], b as [sb|sb| |sb mb eb];
    simpl; intros; float_cases.
Qed.

Section ranking.
Context {CandidateQuery : Type} (zeroCandidateQuery : CandidateQuery).
Context (ReadFile : string → string * option error).
Context (ParseFloat : string → float64 + error).

Abbreviation read_rank := (read_rank zeroCandidateQuery ParseFloat).
Abbreviation getRanking := (getRanking zeroCandidateQuery ReadFile ParseFloat).
Abbreviation zero_ranking := (mkRanking fzero zeroCandidateQuery).

(** The loop writes within the positions of its lines only, and what it
    writes pairs a candidate of the list with a score. *)
Lemma read_ranks_frame (candidates : list CandidateQuery) (lines : list string)
    (i : nat) (ranks : list ranking) (k : nat) (ranks' : list ranking) :
  for_range (read_rank candidates) lines (i, ranks) = Next (k, ranks') →
  length ranks' = length ranks ∧
  (∀ j, (j < i)%nat ∨ (i + length lines ≤ j)%nat → ranks' !! j = ranks !! j) ∧
  (∀ j x, ranks' !! j = Some x → ranks !! j = Some x ∨ rquery x ∈ candidates).
Proof.
  revert i ranks. induction lines as [|text lines IH]; intros i ranks; simpl.
  - intros [= <- <-]. split_and!; [done|done|]. intros j x Hx. by left.
  - destruct (ParseFloat text) as [r|e]; [|done].
    destruct (candidates !! i) as [c|] eqn:Hc; [|done].
    destruct (decide (i < length ranks)%nat); [|done].
    intros (Hlen & Hout & Hin)%IH. rewrite length_insert in Hlen. split_and!; [done| |].
    + intros j Hj. rewrite Hout by lia. apply list_lookup_insert_ne. lia.
    + intros j x Hx. destruct (Hin j x Hx) as [Hold|?]; [|by right].
      destruct (decide (i = j)) as [->|Hne].
      * rewrite list_lookup_insert_eq in Hold by lia. injection Hold as <-.
        right. simpl. by apply list_elem_of_lookup_2 with j.
      * rewrite list_lookup_insert_ne in Hold by done. by left.
Qed.

(** X9. [getRanking] never makes a candidate up: the candidate it
    returns is the zero value or one of the candidates passed in, and with
    an error it is the zero value. This holds for every file content, also
    one with NaN scores or with too few lines. *)
Theorem getRanking_returns_candidate_or_zero (filename : string)
    (candidates : list CandidateQuery) (reads : list string) (c : CandidateQuery)
    (err : option error) :
  getRanking filename candidates = (reads, Returns (c, err)) →
  (c = zeroCandidateQuery ∨ c ∈ candidates) ∧ (is_Some err → c = zeroCandidateQuery).
Proof.
  unfold Learning.getRanking.
  destruct (decide (length candidates = 0%nat)).
  { intros [= <- <- <-]. split; [by left|]. by intros [? [=]]. }
  destruct (ReadFile filename) as [b [e|]].
  { intros [= <- <- <-]. split; [by left|done]. }
  destruct (for_range _ _ _) as [[k ranks]|r] eqn:Hloop.
  - apply read_ranks_frame in Hloop as (_ & _ & Hin).
    pose proof (sort_Slice_rearranges (λ ri rj, fgt (rank ri) (rank rj)) ranks) as Hperm.
    destruct (sort_Slice _ ranks) as [|r0 rest].
    { intros [= <- <- <-]. split; [by left|]. by intros [? [=]]. }
    intros [= <- <- <-]. split; [|by intros [? [=]]].
    assert (Hr0 : r0 ∈ ranks) by (rewrite <- Hperm; apply list_elem_of_here).
    apply list_elem_of_lookup in Hr0 as [j Hj].
    destruct (Hin j r0 Hj) as [Hzero|?]; [|by right].
    apply lookup_replicate in Hzero as [-> _]. by left.
  - (* an early exit returns the zero value with the parse error, or panics *)
    assert (Hexit : ∀ lines st, for_range (read_rank candidates) lines st = Exit r →
              (∃ e, r = Returns (zeroCandidateQuery, Some e)) ∨ ∃ msg, r = Panics msg).
    { clear. induction lines as [|text lines IH]; intros [i ranks]; simpl; [done|].
      destruct (ParseFloat text) as [x|e]; [|intros [= <-]; left; by eexists].
      destruct (candidates !! i); [|intros [= <-]; right; by eexists].
      destruct (decide _); [apply IH|intros [= <-]; right; by eexists]. }
    destruct (Hexit _ _ Hloop) as [[e ->]|[msg ->]]; [|done].
    intros [= <- <- <-]. split; [by left|done].
Qed.

Lemma parsed_scores (lines : list string) :
  Forall (λ text, ∃ r, ParseFloat text = inl r) lines →
  ∃ scores, Forall2 (λ text r, ParseFloat text = inl r) lines scores.
Proof.
  induction 1 as [|text lines [r Hr] _ [scores IH]]; [by exists []|].
  exists (r :: scores). by constructor.
Qed.

(** X10. A ranking file with more lines than there are candidates makes
    [getRanking] panic with an index out of range, once the lines up to
    the first one too many are each shorter than [MaxScanTokenSize] and
    parse. *)
Theorem getRanking_panics_on_extra_line (filename : string)
    (candidates : list CandidateQuery) (b : string) :
  ReadFile filename = (b, None) →
  candidates ≠ [] →
  (length candidates < length (split_lines b))%nat →
  Forall (λ line, fits line = true ∧ ∃ r, ParseFloat (dropCR line) = inl r)
         (take (Datatypes.S (length candidates)) (split_lines b)) →
  getRanking filename candidates = ([filename], Panics "index out of range").
Proof.
  intros Hread Hne Hfile Hlines.
  (* the scanner hands out the lines up to the first one too many *)
  apply Forall_and in Hlines as [Hfit Hfile_parse].
  pose proof (Scan_take _ _ Hfit) as Hscan. fold (ScanLines b) in Hscan.
  assert (Hlong : (length candidates < length (ScanLines b))%nat).
  { apply (f_equal length) in Hscan. rewrite length_fmap, !length_take in Hscan. lia. }
  assert (Hparse : Forall (λ text, ∃ r, ParseFloat text = inl r)
                     (take (Datatypes.S (length candidates)) (ScanLines b))).
  { rewrite Hscan. by apply Forall_fmap. }
  assert (Hlen0 : length candidates ≠ 0%nat) by (by destruct candidates).
  unfold Learning.getRanking. rewrite decide_False by done. rewrite Hread.
  set (ranks0 := replicate (length candidates) zero_ranking).
  destruct (lookup_lt_is_Some_2 (ScanLines b) (length candidates) Hlong) as [text Htext].
  rewrite <- (take_drop (length candidates) (ScanLines b)).
  rewrite (drop_S _ _ _ Htext).
  rewrite (take_S_r _ _ _ Htext) in Hparse. apply Forall_app in Hparse as [Hhead Hlast].
  apply Forall_singleton in Hlast as [r Hr].
  destruct (parsed_scores _ Hhead) as [scores Hscores].
  destruct (read_ranks_all zeroCandidateQuery ParseFloat candidates _ scores 0 ranks0 Hscores)
    as (ranks & Hloop & Hlen & _).
  { rewrite length_take. lia. }
  { apply length_replicate. }
  rewrite for_range_app, Hloop. simpl. rewrite Hr.
  rewrite length_take, Nat.min_l by lia.
  by rewrite (proj2 (lookup_ge_None candidates (length candidates))) by lia.
Qed.

(** X11. A ranking file with fewer lines than there are candidates
    leaves the missing scores at 0, paired with the zero candidate: when
    the scores it does hold are all below 0, [getRanking] returns the zero
    candidate and no error, not one of the candidates. An empty file is
    such a file. *)
Theorem getRanking_short_file_returns_zero (filename : string)
    (candidates : list CandidateQuery) (b : string) (scores : list float64) :
  ReadFile filename = (b, None) →
  (length (ScanLines b) < length candidates)%nat →
  Forall2 (λ text r, ParseFloat text = inl r) (ScanLines b) scores →
  Forall (λ r, flt r fzero = true) scores →
  getRanking filename candidates = ([filename], Returns (zeroCandidateQuery, None)).
Proof.
  intros Hread Hshort Hparse Hneg.
  assert (Hlen0 : length candidates ≠ 0%nat) by lia.
  unfold Learning.getRanking. rewrite decide_False by done. rewrite Hread.
  set (ranks0 := replicate (length candidates) zero_ranking).
  assert (Hranks0 : length ranks0 = length candidates) by apply length_replicate.
  destruct (read_ranks_all zeroCandidateQuery ParseFloat candidates _ scores 0 ranks0 Hparse)
    as (ranks & Hloop & Hlen & _ & Hfilled); [lia|done|].
  rewrite Hloop. pose proof (read_ranks_frame _ _ _ _ _ _ Hloop) as (_ & Hout & _).
  pose proof (Forall2_length _ _ _ Hparse) as Hscores.
  (* every entry is a negative score, or the untouched zero entry *)
  assert (Hat : ∀ j x, ranks !! j = Some x →
            flt (rank x) fzero = true ∨ x = zero_ranking).
  { intros j x Hx. destruct (decide (j < length scores)%nat) as [Hj|Hj].
    - left. destruct (lookup_lt_is_Some_2 scores j Hj) as [r Hr].
      destruct (lookup_lt_is_Some_2 candidates j) as [c Hc]; [lia|].
      specialize (Hfilled j r c Hr Hc). simpl in Hfilled. rewrite Hfilled in Hx.
      injection Hx as <-. simpl. by apply (proj1 (Forall_lookup _ _) Hneg j).
    - right. rewrite Hout in Hx by lia. by apply lookup_replicate in Hx as [-> _]. }
  assert (Hnan : Forall (λ x, is_nan (rank x) = false) ranks).
  { apply Forall_lookup. intros j x Hx. destruct (Hat j x Hx) as [Hlt| ->]; [|done].
    by apply flt_not_nan in Hlt as [? _]. }
  destruct (sort_Slice_first rank ranks Hnan) as [Hperm Hmax].
  destruct (sort_Slice (λ ri rj, fgt (rank ri) (rank rj)) ranks) as [|r0 rest] eqn:Hsorted.
  { apply Permutation_length in Hperm. simpl in Hperm. lia. }
  assert (Hin : r0 ∈ ranks) by (rewrite <- Hperm; apply list_elem_of_here).
  apply list_elem_of_lookup in Hin as [k Hk].
  destruct (Hat k r0 Hk) as [Hlt| ->]; [|done].
  exfalso.
  assert (Hzero : ranks !! length scores = Some zero_ranking).
  { rewrite Hout by lia. apply lookup_replicate. split; [done|lia]. }
  pose proof (proj1 (Forall_lookup _ _) (Hmax r0 rest eq_refl) _ _ Hzero) as Hle.
  simpl in Hle. apply flt_not_fle in Hlt. congruence.
Qed.

End ranking.

Import Scenario Scenario2.

Lemma Execute_error_comes_with_zero_witness :
  Execute 0%nat (λ q : nat, q) failing_variation chain 5%nat 3
    = Some (0%nat, Some (ErrOther "generation failed")) ∧ 0%nat = 0%nat.
Proof.
  assert (Hrun : Execute 0%nat (λ q : nat, q) failing_variation chain 5%nat 3
                 = Some (0%nat, Some (ErrOther "generation failed"))) by reflexivity.
  split; [exact Hrun|].
  exact (Execute_error_comes_with_zero 0%nat (λ q : nat, q) failing_variation
           chain 5%nat 3 0%nat _ Hrun).
Defined.

Lemma getRanking_returns_candidate_or_zero_witness :
  8%nat = 0%nat ∨ 8%nat ∈ [7%nat; 8%nat; 9%nat].
Proof.
  exact (proj1 (getRanking_returns_candidate_or_zero 0%nat disk parse_number "ranks"
                  [7%nat; 8%nat; 9%nat] ["ranks"] 8%nat None eq_refl)).
Defined.

Lemma getRanking_panics_on_extra_line_witness :
  Learning.getRanking 0%nat four_ranks parse_number "ranks" [7%nat; 8%nat; 9%nat]
    = (["ranks"], Panics "index out of range").
Proof.
  apply (getRanking_panics_on_extra_line 0%nat four_ranks parse_number "ranks"
           [7%nat; 8%nat; 9%nat] _ eq_refl); [discriminate|simpl; lia|].
  repeat constructor; by eexists.
Defined.

Lemma getRanking_short_file_returns_zero_witness :
  Learning.getRanking 0%nat negative_ranks parse_number "ranks" [7%nat; 8%nat; 9%nat]
    = (["ranks"], Returns (0%nat, None)).
Proof.
  apply (getRanking_short_file_returns_zero 0%nat negative_ranks parse_number "ranks"
           [7%nat; 8%nat; 9%nat] _ [of_Z (-1); of_Z (-3)] eq_refl).
  - simpl. lia.
  - repeat constructor.
  - repeat constructor.
Defined.

End LearningMore.

(** ** The features of the oracle selector *)

Module RewriteFeaturesFacts.
Import Eval Rewrite RewriteFeatures LoopFacts.

Section features.
Context `{Combinator}.
Context {FeatureFamily : Type}.
Context (ssExecute : StatisticsSource → PipelineQuery → ResultList * option error).

Abbreviation Transformation := (@Transformation _ FeatureFamily).
Abbreviation CandidateQuery := (@CandidateQuery _ FeatureFamily).
Abbreviation LearntFeature := (@LearntFeature FeatureFamily).

(** With one evaluator, the entry under its name is its score. *)
Lemma Evaluate_single (e : Evaluator) (results : ResultList) (qrels : QrelsFile)
    (topic : string) :
  index (Evaluate [e] results qrels topic) (Name e)
    = score e results (default ∅ (Qrels qrels !! topic)).
Proof.
  unfold index, Evaluate. destruct results; simpl; by rewrite lookup_insert_eq.
Qed.

Lemma score_candidates (oc : OracleQueryChainCandidateSelector) (query : PipelineQuery)
    (cqs : list CandidateQuery) (lf : list LearntFeature) :
  for_range (score_candidate ssExecute oc query query) cqs lf
    = Next (lf ++ omap (feature_of ssExecute oc query) cqs).
Proof.
  revert lf. induction cqs as [|c cqs IH]; intros lf; simpl.
  - by rewrite app_nil_r.
  - unfold score_candidate at 1, feature_of at 1.
    destruct (ssExecute _ _) as [results [e|]]; [apply IH|].
    rewrite IH, Evaluate_single. by rewrite <- app_assoc.
Qed.

Lemma pass_applies (oc : OracleQueryChainCandidateSelector) (query : PipelineQuery)
    (transformations : list Transformation) (lf : list LearntFeature) :
  Forall (λ t, (Apply t (pqQuery query)).2 = None) transformations →
  for_range (apply_transformation ssExecute oc query query) transformations lf
    = Next (lf ++ one_pass ssExecute oc query transformations).
Proof.
  intros Hok. revert lf. induction Hok as [|t ts Ht _ IH]; intros lf; simpl.
  - by rewrite app_nil_r.
  - unfold apply_transformation at 1. destruct (Apply t (pqQuery query)) as [cqs err].
    simpl in Ht. subst err. rewrite score_candidates, IH.
    unfold one_pass. simpl. by rewrite <- app_assoc.
Qed.

Lemma pass_fails (oc : OracleQueryChainCandidateSelector) (query : PipelineQuery)
    (before after : list Transformation) (t : Transformation) (e : error)
    (lf : list LearntFeature) :
  Forall (λ t, (Apply t (pqQuery query)).2 = None) before →
  (Apply t (pqQuery query)).2 = Some e →
  for_range (apply_transformation ssExecute oc query query) (before ++ t :: after) lf
    = Exit ([], Some e).
Proof.
  intros Hok Ht. rewrite for_range_app, (pass_applies _ _ _ _ Hok). simpl.
  unfold apply_transformation at 1. destruct (Apply t (pqQuery query)) as [cqs err].
  simpl in Ht. by subst err.
Qed.


(** X6. When a transformation fails to apply, [Features] returns that
    error, the one of the first such transformation, and no feature at
    all: what the transformations before it contributed is dropped. *)
Theorem Features_apply_failure (oc : OracleQueryChainCandidateSelector)
    (query : PipelineQuery) (before after : list Transformation) (t : Transformation)
    (e : error) :
  Forall (λ t, (Apply t (pqQuery query)).2 = None) before →
  (Apply t (pqQuery query)).2 = Some e →
  Features ssExecute oc query (before ++ t :: after) = ([], Some e).
Proof.
  intros Hok Ht. unfold Features. simpl. by rewrite (pass_fails _ _ _ _ _ _ _ Hok Ht).
Qed.

End features.

Import Scenario Scenario2 Float64Arith.


Lemma Features_apply_failure_witness :
  Features (H := collection) run_query fresh (numbered 0) [mixed; inapplicable; mixed]
    = ([], Some (ErrOther "cannot apply")).
Proof.
  apply (Features_apply_failure (H := collection) run_query fresh (numbered 0)
           [mixed] [mixed] inapplicable).
  - repeat constructor.
  - reflexivity.
Defined.

End RewriteFeaturesFacts.

(** ** Building a pipeline *)

Module PipelineFacts.
Import Pipeline.

Section pipeline.
Context {query_QueriesSource stats_StatisticsSource preprocess_QueryProcessor
         preprocess_BooleanTransformation preprocess_ElasticsearchTransformation
         analysis_Measurement output_MeasurementFormatter eval_Evaluator
         output_EvaluationFormatter trecresults_QrelsFile rewrite_QueryChain : Type}.
Context (zeroQrelsFile : trecresults_QrelsFile) (zeroQueryChain : rewrite_QueryChain).

Abbreviation component :=
  (@component preprocess_QueryProcessor preprocess_BooleanTransformation
     preprocess_ElasticsearchTransformation analysis_Measurement
     output_MeasurementFormatter eval_Evaluator output_EvaluationFormatter
     trecresults_QrelsFile).
Abbreviation GroovePipeline :=
  (@GroovePipeline query_QueriesSource stats_StatisticsSource preprocess_QueryProcessor
     preprocess_BooleanTransformation preprocess_ElasticsearchTransformation
     analysis_Measurement output_MeasurementFormatter eval_Evaluator
     output_EvaluationFormatter trecresults_QrelsFile rewrite_QueryChain).
Abbreviation NewGroovePipeline := (NewGroovePipeline zeroQrelsFile zeroQueryChain).

Lemma install_keeps (gp : GroovePipeline) (c : component) :
  QueriesSource (install gp c) = QueriesSource gp ∧
  StatisticsSource (install gp c) = StatisticsSource gp ∧
  Evaluations (install gp c) = Evaluations gp ∧
  EvaluationFormatters (install gp c) = EvaluationFormatters gp ∧
  OutputTrec (install gp c) = OutputTrec gp ∧
  QueryChain (install gp c) = QueryChain gp.
Proof. unfold install. by destruct (c tt). Qed.

(** X12. However many components it is given, of whatever kind,
    [NewGroovePipeline] builds a pipeline over the query source and the
    statistics source passed in, and never sets evaluators, evaluation
    formatters with their judgments, the trec output path or the query
    chain: components made by [Evaluation], [TrecOutput] and
    [EvaluationOutput] have no effect. *)
Theorem NewGroovePipeline_drops_evaluation_components (qs : query_QueriesSource)
    (ss : stats_StatisticsSource) (components : list component) :
  let gp := NewGroovePipeline qs ss components in
  QueriesSource gp = qs ∧
  StatisticsSource gp = ss ∧
  Evaluations gp = [] ∧
  EvaluationFormatters gp = mkEvaluationOutputFormat [] zeroQrelsFile ∧
  OutputTrec gp = mkTrecResults EmptyString ∧
  QueryChain gp = zeroQueryChain.
Proof.
  cbv zeta. unfold Pipeline.NewGroovePipeline.
  induction components as [|c components IH] using rev_ind; [done|].
  rewrite foldl_app. simpl.
  destruct (install_keeps (foldl install
              (mkGroovePipeline qs ss [] (mkQueryTransformations [] []) [] [] []
                 (mkEvaluationOutputFormat [] zeroQrelsFile) (mkTrecResults EmptyString)
                 zeroQueryChain) components) c)
    as (-> & -> & -> & -> & -> & ->).
  exact IH.
Qed.

(** Components that do not carry the kind of value [same] recognises. *)
Abbreviation none_of same := (Forall (λ c : component, same (c tt) = false)).

(** X13. Of the components that set one field, the last one decides:
    the pipeline has the preprocessors, the measurements, the measurement
    formatters and the transformations of the last component carrying
    such a value, whatever stands before it and whatever components of
    other kinds come after it. *)
Theorem NewGroovePipeline_last_component_wins (qs : query_QueriesSource)
    (ss : stats_StatisticsSource) (before later : list component) (c : component) :
  let gp := NewGroovePipeline qs ss (before ++ c :: later) in
  (∀ v, c tt = QueryProcessors v →
     none_of (λ d, match d with QueryProcessors _ => true | _ => false end) later →
     gpPreprocess gp = v) ∧
  (∀ v, c tt = MeasurementList v →
     none_of (λ d, match d with MeasurementList _ => true | _ => false end) later →
     Measurements gp = v) ∧
  (∀ v, c tt = MeasurementFormatterList v →
     none_of (λ d, match d with MeasurementFormatterList _ => true | _ => false end) later →
     MeasurementFormatters gp = v) ∧
  (∀ v, c tt = QueryTransformationsValue v →
     none_of (λ d, match d with QueryTransformationsValue _ => true | _ => false end) later →
     Transformations gp = v).
Proof.
  cbv zeta. unfold Pipeline.NewGroovePipeline. rewrite foldl_app. simpl.
  set (gp0 := foldl install _ before).
  split_and!; intros v Hc Hlater.
  - assert (Hstart : gpPreprocess (install gp0 c) = v) by (unfold install; by rewrite Hc).
    revert Hstart. generalize (install gp0 c).
    induction Hlater as [|c' later Hc' _ IH]; intros gp Hgp; simpl; [done|].
    apply IH. unfold install. by destruct (c' tt).
  - assert (Hstart : Measurements (install gp0 c) = v) by (unfold install; by rewrite Hc).
    revert Hstart. generalize (install gp0 c).
    induction Hlater as [|c' later Hc' _ IH]; intros gp Hgp; simpl; [done|].
    apply IH. unfold install. by destruct (c' tt).
  - assert (Hstart : MeasurementFormatters (install gp0 c) = v)
      by (unfold install; by rewrite Hc).
    revert Hstart. generalize (install gp0 c).
    induction Hlater as [|c' later Hc' _ IH]; intros gp Hgp; simpl; [done|].
    apply IH. unfold install. by destruct (c' tt).
  - assert (Hstart : Transformations (install gp0 c) = v) by (unfold install; by rewrite Hc).
    revert Hstart. generalize (install gp0 c).
    induction Hlater as [|c' later Hc' _ IH]; intros gp Hgp; simpl; [done|].
    apply IH. unfold install. by destruct (c' tt).
Qed.

End pipeline.

Lemma NewGroovePipeline_last_component_wins_witness :
  Measurements (NewGroovePipeline (query_QueriesSource := unit) (stats_StatisticsSource := unit)
                  (preprocess_QueryProcessor := unit)
                  (preprocess_BooleanTransformation := unit)
                  (preprocess_ElasticsearchTransformation := unit)
                  (output_MeasurementFormatter := unit) (eval_Evaluator := unit)
                  (output_EvaluationFormatter := unit) tt tt tt tt
                  [Measurement ["a"]; Measurement ["b"; "c"]; Evaluation [tt];
                   TrecOutput "run.trec"])
    = ["b"; "c"].
Proof.
  apply (NewGroovePipeline_last_component_wins tt tt tt tt [Measurement ["a"]]
           [Evaluation [tt]; TrecOutput "run.trec"] (Measurement ["b"; "c"])).
  - reflexivity.
  - repeat constructor.
Defined.

End PipelineFacts.

(** ** Average inverse collection term frequency *)

Module PreqppFacts.
Import Preqpp Float64Arith LoopFacts.

Section ictf.
Context {CQR : Type}.
Context (QueryTerms : CQR → list string) (QueryFields : CQR → list string).
Context (Log2 : float64 → float64).

Ltac list_assoc := repeat (progress (simpl; rewrite <- ?app_assoc)).

(** The calls of a loop that failed: those of the schedule [planned] up to
    and with the first call the source does not answer, after [calls]. *)
Abbreviation stopped_in s planned calls :=
  (λ r : measured,
     r.2.1 = fzero ∧
     ∃ before c later e,
       planned = before ++ c :: later ∧ r.1 = calls ++ before ++ [c] ∧
       Forall (answered s) before ∧ (answer s c).2 = Some e ∧ r.2.2 = Some e).

Lemma add_terms (s : StatisticsSource) (field : string) (terms : list string)
    (calls : list lookup) (sumICTF : float64) :
  match for_range (add_term Log2 s field (VocabularySize s field).1) terms (calls, sumICTF) with
  | Next (calls', sumICTF') =>
      calls' = calls ++ ((λ term, AskTotalTermFrequency term field) <$> terms) ∧
      Forall (answered s) ((λ term, AskTotalTermFrequency term field) <$> terms) ∧
      sumICTF' = foldl (ictf_term Log2 s field) sumICTF terms
  | Exit r => stopped_in s ((λ term, AskTotalTermFrequency term field) <$> terms) calls r
  end.
Proof.
  revert calls sumICTF. induction terms as [|term terms IH]; intros calls sumICTF; simpl.
  - by rewrite app_nil_r.
  - destruct (TotalTermFrequency s term field) as [tf [e|]] eqn:Htf; simpl.
    + split; [done|]. exists [], (AskTotalTermFrequency term field),
        ((λ term, AskTotalTermFrequency term field) <$> terms), e.
      split_and!; [done|done|done| |done]. simpl. by rewrite Htf.
    + specialize (IH (calls ++ [AskTotalTermFrequency term field])
                     (fadd sumICTF (fsub (Log2 (VocabularySize s field).1)
                                         (Log2 (fadd fone tf))))).
      destruct (for_range _ _ _) as [[calls' sumICTF']|r].
      * destruct IH as (-> & Hok & ->). split_and!.
        -- by rewrite <- app_assoc.
        -- constructor; [|done]. unfold answered. simpl. by rewrite Htf.
        -- change (ictf_term Log2 s field sumICTF term) with
             (fadd sumICTF (fsub (Log2 (VocabularySize s field).1)
                                 (Log2 (fadd fone (TotalTermFrequency s term field).1)))).
           by rewrite Htf.
      * destruct IH as (Hv & before & c & later & e & Hplan & Hcalls & Hok & Hc & He).
        split; [done|]. exists (AskTotalTermFrequency term field :: before), c, later, e.
        split_and!; [simpl; f_equal; exact Hplan| |constructor; [|done]|done|done].
        -- rewrite Hcalls. by rewrite <- !app_assoc.
        -- unfold answered. simpl. by rewrite Htf.
Qed.

Lemma add_fields (s : StatisticsSource) (terms fields : list string)
    (calls : list lookup) (sumICTF : float64) :
  match for_range (add_field Log2 s terms) fields (calls, sumICTF) with
  | Next (calls', sumICTF') =>
      calls' = calls ++ schedule terms fields ∧
      Forall (answered s) (schedule terms fields) ∧
      sumICTF' = ictf_sum Log2 s terms fields sumICTF
  | Exit r => stopped_in s (schedule terms fields) calls r
  end.
Proof.
  revert calls sumICTF. induction fields as [|field fields IH]; intros calls sumICTF; simpl.
  - by rewrite app_nil_r.
  - unfold schedule. simpl. fold (schedule terms fields).
    assert (Hask : ∀ W, VocabularySize s field = (W, None) →
              answered s (AskVocabularySize field)).
    { intros W HW. unfold answered. simpl. by rewrite HW. }
    destruct (VocabularySize s field) as [W [e|]] eqn:HW; simpl.
    + split; [done|]. exists [], (AskVocabularySize field),
        (((λ term, AskTotalTermFrequency term field) <$> terms) ++ schedule terms fields), e.
      split_and!; [done|done|done| |done]. simpl. by rewrite HW.
    + pose proof (add_terms s field terms (calls ++ [AskVocabularySize field]) sumICTF)
        as Hterms.
      rewrite HW in Hterms. simpl in Hterms.
      destruct (for_range (add_term _ _ _ _) _ _) as [[calls1 sum1]|r].
      * destruct Hterms as (-> & Hok1 & ->).
        specialize (IH ((calls ++ [AskVocabularySize field]) ++
                          ((λ term, AskTotalTermFrequency term field) <$> terms))
                       (foldl (ictf_term Log2 s field) sumICTF terms)).
        destruct (for_range _ _ _) as [[calls' sumICTF']|r].
        -- destruct IH as (-> & Hok & ->). split_and!.
           ++ list_assoc. done.
           ++ constructor; [by eapply Hask|]. by apply Forall_app.
           ++ done.
        -- destruct IH as (Hv & before & c & later & e & Hplan & Hcalls & Hok & Hc & He).
           split; [done|].
           exists (AskVocabularySize field ::
                     ((λ term, AskTotalTermFrequency term field) <$> terms) ++ before),
                  c, later, e.
           split_and!; [| | |done|done].
           ++ rewrite Hplan. list_assoc. done.
           ++ rewrite Hcalls. list_assoc. done.
           ++ constructor; [by eapply Hask|]. by apply Forall_app.
      * destruct Hterms as (Hv & before & c & later & e & Hplan & Hcalls & Hok & Hc & He).
        split; [done|]. exists (AskVocabularySize field :: before), c,
                               (later ++ schedule terms fields), e.
        split_and!; [| | |done|done].
        -- change (list_fmap string lookup (λ term, AskTotalTermFrequency term field) terms)
             with ((λ term, AskTotalTermFrequency term field) <$> terms).
           rewrite Hplan. list_assoc. done.
        -- rewrite Hcalls. list_assoc. done.
        -- constructor; [by eapply Hask|done].
Qed.

(** X17. [AvgICTF.Execute] on a query without terms returns 0 and asks
    the statistics source nothing. Otherwise it asks, field by field, for
    the vocabulary size and then for the frequency of each term: when the
    source answers every call, all these calls are made and the result is
    the accumulated sum times 1 over the number of terms; at the first
    call the source fails, [Execute] returns 0 with that error and makes
    no further call. *)
Theorem Execute_asks_in_order (q : CQR) (s : StatisticsSource) :
  let terms := QueryTerms q in
  let fields := QueryFields q in
  let r := Execute QueryTerms QueryFields Log2 q s in
  (terms = [] → r = ([], (fzero, None))) ∧
  (terms ≠ [] →
     match r.2.2 with
     | None =>
         r.1 = schedule terms fields ∧
         Forall (answered s) (schedule terms fields) ∧
         r.2.1 = fmul (fdiv fone (of_Z (Z.of_nat (length terms))))
                      (ictf_sum Log2 s terms fields fzero)
     | Some e =>
         r.2.1 = fzero ∧
         ∃ before c later,
           schedule terms fields = before ++ c :: later ∧ r.1 = before ++ [c] ∧
           Forall (answered s) before ∧ (answer s c).2 = Some e
     end).
Proof.
  intros terms fields r. subst r. unfold Execute. fold terms fields. split.
  - intros ->. done.
  - intros Hterms. rewrite decide_False by (by destruct terms).
    pose proof (add_fields s terms fields [] fzero) as Hloop.
    destruct (for_range _ _ _) as [[calls sumICTF]|r]; simpl.
    + by destruct Hloop as (-> & Hok & ->).
    + destruct Hloop as (Hv & before & c & later & e & Hplan & Hcalls & Hok & Hc & ->).
      split; [done|]. by exists before, c, later.
Qed.

End ictf.

Lemma Execute_asks_in_order_witness :
  let r := Execute (CQR := list string * list string) fst snd (λ x, x)
             (["common"; "rare"; "other"], ["title"; "abstract"]) Scenario2.vocabulary in
  r.2.1 = fzero ∧
  ∃ before c later,
    schedule ["common"; "rare"; "other"] ["title"; "abstract"] = before ++ c :: later ∧
    r.1 = before ++ [c] ∧
    Forall (answered Scenario2.vocabulary) before ∧
    (answer Scenario2.vocabulary c).2 = Some (ErrOther "unknown term").
Proof.
  exact (proj2 (Execute_asks_in_order (CQR := list string * list string) fst snd (λ x, x)
                  (["common"; "rare"; "other"], ["title"; "abstract"]) Scenario2.vocabulary)
               ltac:(discriminate)).
Defined.

(** The run of the witness: three calls, the third one failing. *)
Example Execute_stops_at_unknown_term :
  Execute (CQR := list string * list string) fst snd (λ x, x)
          (["common"; "rare"; "other"], ["title"; "abstract"]) Scenario2.vocabulary
    = ([AskVocabularySize "title"; AskTotalTermFrequency "common" "title";
        AskTotalTermFrequency "rare" "title"],
       (fzero, Some (ErrOther "unknown term"))).
Proof. by vm_compute. Qed.

End PreqppFacts.

(** ** Loading protocols *)

Module QuerySourceFacts.
Import QuerySource LoopFacts.

Section load.
Context {CQR StatisticsSource : Type}.
Context (ReadDir : string → list FileInfo * option error).
Context (ReadFile : string → string * option error).
Context (Unmarshal : string → protocol * option error).

Abbreviation Query := (@Query CQR).
Abbreviation to_open := (filter (λ f : FileInfo, opened f)).

Abbreviation load_file := (load_file ReadFile Unmarshal).
Abbreviation entry := (entry ReadFile Unmarshal).

(** An entry that is skipped leaves the loop state as it is; one that is
    opened is read, and goes on with its queries or ends the loop. *)
Lemma load_file_skips (construct : string → string → string → string → list CQR * option error)
    (directory : string) (st : list string * list Query) (f : FileInfo) :
  opened f = false → load_file construct directory st f = Next st.
Proof.
  unfold opened, QuerySource.load_file. destruct st as [reads queries].
  destruct (IsDir f); [done|]. simpl.
  destruct (decide (String.length (Name f) = 0%nat)) as [|Hname]; [done|].
  by rewrite (proj2 (Nat.eqb_neq _ _) Hname).
Qed.

Lemma load_file_opens (construct : string → string → string → string → list CQR * option error)
    (directory : string) (reads : list string) (queries : list Query) (f : FileInfo) :
  opened f = true →
  load_file construct directory (reads, queries) f
    = match entry construct directory f with
      | inl made => Next (reads ++ [path_of directory f], queries ++ made)
      | inr e => Exit (reads ++ [path_of directory f], ([], Some e))
      end.
Proof.
  unfold opened, QuerySource.load_file, QuerySource.entry. intros Hop.
  destruct (IsDir f); [done|]. simpl in Hop.
  destruct (decide (String.length (Name f) = 0%nat)) as [Hname|_].
  { by rewrite (proj2 (Nat.eqb_eq _ _) Hname) in Hop. }
  fold (path_of directory f).
  destruct (ReadFile (path_of directory f)) as [source [e|]]; [done|].
  destruct (Unmarshal source) as [p [e|]]; [done|].
  by destruct (construct _ _ _ _) as [q [e|]].
Qed.

(** The loop over entries that all give their queries. *)
Lemma load_files_all (construct : string → string → string → string → list CQR * option error)
    (directory : string) (files : list FileInfo) (made : list (list Query))
    (reads : list string) (queries : list Query) :
  Forall2 (λ f made_f, entry construct directory f = inl made_f) (to_open files) made →
  for_range (load_file construct directory) files (reads, queries)
    = Next (reads ++ (path_of directory <$> to_open files), queries ++ concat made).
Proof.
  revert made reads queries.
  induction files as [|f files IH]; intros made reads queries Hmade.
  - simpl in Hmade. apply Forall2_nil_inv_l in Hmade as ->. simpl. by rewrite !app_nil_r.
  - cbn [for_range]. destruct (opened f) eqn:Hop.
    + rewrite filter_cons, decide_True in Hmade |- * by (by rewrite Hop).
      apply Forall2_cons_inv_l in Hmade as (made_f & made' & Hf & Hmade & ->).
      rewrite load_file_opens, Hf by done.
      rewrite (IH made') by done. simpl. by rewrite <- !app_assoc.
    + rewrite filter_cons, decide_False in Hmade |- * by (rewrite Hop; by intros []).
      rewrite load_file_skips by done. by apply IH.
Qed.

(** The loop over entries of which one fails. *)
Lemma load_files_failure (construct : string → string → string → string → list CQR * option error)
    (directory : string) (files before : list FileInfo) (f : FileInfo)
    (later : list FileInfo) (e : error) (reads : list string) (queries : list Query) :
  to_open files = before ++ f :: later →
  Forall (λ f0, ∃ made, entry construct directory f0 = inl made) before →
  entry construct directory f = inr e →
  for_range (load_file construct directory) files (reads, queries)
    = Exit (reads ++ (path_of directory <$> before ++ [f]), ([], Some e)).
Proof.
  revert before reads queries.
  induction files as [|f0 files IH]; intros before reads queries Hplan Hbefore Hf.
  - by destruct before.
  - cbn [for_range]. destruct (opened f0) eqn:Hop.
    + rewrite filter_cons, decide_True in Hplan by (by rewrite Hop).
      rewrite load_file_opens by done.
      destruct before as [|f1 before]; simpl in Hplan; injection Hplan as -> Hplan.
      * by rewrite Hf.
      * apply Forall_cons in Hbefore as [[made Hf1] Hbefore]. rewrite Hf1.
        rewrite (IH before) by done. simpl. by rewrite <- !app_assoc.
    + rewrite filter_cons, decide_False in Hplan by (rewrite Hop; by intros []).
      rewrite load_file_skips by done. by apply (IH before).
Qed.

Lemma load_loads (construct : string → string → string → string → list CQR * option error)
    (directory : string) (files : list FileInfo) :
  ReadDir directory = (files, None) →
  loads ReadFile Unmarshal construct directory files
        (load ReadDir ReadFile Unmarshal construct directory).
Proof.
  intros Hdir. unfold load. rewrite Hdir. split.
  - intros made Hmade. by rewrite (load_files_all _ _ _ made).
  - intros before f later e Hplan Hbefore Hf.
    by rewrite (load_files_failure _ _ _ before f later e).
Qed.

(** X18. Both [Load] functions, given the entries of the directory, open
    the entries that are no directories and have a name, in directory
    order, and nothing else. When reading, unmarshalling and constructing
    succeed for each of them, all are read and the queries returned are
    those of the entries one after the other, every query bearing its
    entry's name as its name and as its topic. When one of the three fails
    for an entry, after the entries before it succeeded, the files read are
    those up to and including that entry, the error returned is that
    failure, and no query at all is returned, also none from the entries
    before. A failure to list the directory is returned with nothing
    read. *)
Theorem Load_reads_named_files_in_order
    (Construct : string → string → string → string → list CQR * option error)
    (ConstructQuickUMLS : string → string → string → string → string → float64 →
                          StatisticsSource → list CQR * option error)
    (q : QuickUMLSProtocolQuerySource) (directory : string) :
  (∀ files, ReadDir directory = (files, None) →
     loads ReadFile Unmarshal Construct directory files
       (ProtocolQuerySource_Load ReadDir ReadFile Unmarshal Construct directory) ∧
     loads ReadFile Unmarshal
       (λ objective participants indexTests targetConditions,
          ConstructQuickUMLS objective participants indexTests targetConditions
                             (url q) (threshold q) (ss q))
       directory files
       (QuickUMLSProtocolQuerySource_Load ReadDir ReadFile Unmarshal ConstructQuickUMLS
          q directory)) ∧
  (∀ files e, ReadDir directory = (files, Some e) →
     ProtocolQuerySource_Load ReadDir ReadFile Unmarshal Construct directory
       = ([], ([], Some e)) ∧
     QuickUMLSProtocolQuerySource_Load ReadDir ReadFile Unmarshal ConstructQuickUMLS
       q directory = ([], ([], Some e))).
Proof.
  split.
  - intros files Hdir. split.
    + unfold ProtocolQuerySource_Load. by apply load_loads.
    + unfold QuickUMLSProtocolQuerySource_Load. by apply load_loads.
  - intros files e Hdir.
    unfold ProtocolQuerySource_Load, QuickUMLSProtocolQuerySource_Load, load.
    by rewrite Hdir.
Qed.

End load.

Import Scenario2.

Lemma Load_reads_named_files_in_order_witness :
  ProtocolQuerySource_Load protocols protocol_file parse_protocol construct_two "topics"
    = (["topics/CD001"; "topics/CD002"], ([], Some (ErrOther "XML syntax error"))).
Proof.
  destruct (Load_reads_named_files_in_order (StatisticsSource := unit)
              protocols protocol_file parse_protocol construct_two
              (λ _ _ _ _ _ _ _, ([], None))
              (NewQuickUMLSProtocolQuerySource "url" tt fzero) "topics") as [Hload _].
  destruct (Hload _ eq_refl) as [[_ Hfails] _].
  apply (Hfails [mkFileInfo false "CD001"] (mkFileInfo false "CD002") []).
  - reflexivity.
  - constructor; [|constructor]. by eexists.
  - reflexivity.
Defined.

End QuerySourceFacts.

(** ** The conceptual formulator and the options of the objective one *)

Module FormulationMethodsFacts.
Import Formulation FormulationMethods LoopFacts.

Section conceptual.
Context {CQR EntityExpanderT KeywordMapperT DataMarshaler : Type}.
Context (EntityExpansion : CQR → EntityExpanderT → CQR * option error).
Context (MapKeywords : CQR → KeywordMapperT → CQR * option error).

Abbreviation Formulate := (Formulate (DataMarshaler := DataMarshaler) EntityExpansion MapKeywords).

(** X19. The conceptual [Formulate] returns one query with no error,
    or no query with an error, and never any supplemental data. A nil
    entity expander skips the expansion stage: the result is the one got
    with an expander that hands every query back as it is. *)
Theorem Formulate_conceptual_one_query_or_error
    (t : @ConceptualFormulator CQR EntityExpanderT KeywordMapperT) :
  let r := Formulate t in
  (r.1.2 = [] ∧
   match r.2 with
   | None => ∃ q, r.1.1 = [q]
   | Some _ => r.1.1 = []
   end) ∧
  (∀ expander, EntityExpander t = None →
     (∀ q, EntityExpansion q expander = (q, None)) →
     Formulate (with_expander t expander) = r).
Proof.
  cbv zeta. split.
  - unfold FormulationMethods.Formulate.
    destruct (LogicComposer t (title t)) as [q1 [e|]]; [done|].
    destruct (EntityExtractor t q1) as [q2 [e|]]; [done|].
    destruct (match EntityExpander t with
              | Some expander => EntityExpansion q2 expander
              | None => (q2, None)
              end) as [q3 [e|]]; [done|].
    destruct (MapKeywords q3 (KeywordMapper t)) as [q4 [e|]]; [done|].
    destruct (for_range post_process_one (cPostProcessing t) q4) as [q5|e]; [|done].
    split; [done|]. by exists q5.
  - intros expander Hnil Hid. unfold FormulationMethods.Formulate, with_expander. simpl.
    rewrite Hnil.
    destruct (LogicComposer t (title t)) as [q1 [e|]]; [done|].
    destruct (EntityExtractor t q1) as [q2 [e|]]; [done|].
    by rewrite Hid.
Qed.

End conceptual.

Section options.
Context {CQR Documents Terms BackgroundCollection EntrezStatisticsSource : Type}.
Context (RandomSplitter : Z → Documents → Documents * Documents * Documents).
Context (TermFrequencyAnalyser : Documents → Terms * option error).

Abbreviation ObjectiveFormulator :=
  (@Formulation.ObjectiveFormulator CQR Documents Terms BackgroundCollection
     EntrezStatisticsSource).
Abbreviation ObjectiveOption :=
  (@ObjectiveOption CQR Documents Terms BackgroundCollection EntrezStatisticsSource).
Abbreviation apply_options :=
  (foldl (λ (o : ObjectiveFormulator) (option : ObjectiveOption), option o)).

(** What is passed to the constructor, and the grid. *)
Abbreviation passed o :=
  (seed o, Folder o, Pubdates o, SemTypes o, MetaMapURL o, query o, s o, qrels o,
   population o).
Abbreviation grid o := (DevK o, PopK o, MeSHK o).

Lemma made_option_keeps (option : ObjectiveOption) (o : ObjectiveFormulator) :
  made_option option → passed (option o) = passed o.
Proof.
  intros [(d & p & m & ->)|[[sp ->]|[[a ->]|[ps ->]]]]; done.
Qed.

Lemma not_a_grid_keeps (option : ObjectiveOption) (o : ObjectiveFormulator) :
  not_a_grid option → grid (option o) = grid o.
Proof. intros [[sp ->]|[[a ->]|[ps ->]]]; done. Qed.

Lemma options_keep (options : list ObjectiveOption) (o : ObjectiveFormulator) :
  Forall made_option options → passed (apply_options o options) = passed o.
Proof.
  intros Hmade. revert o. induction Hmade as [|option options Hopt _ IH]; intros o; [done|].
  simpl. rewrite IH. by apply made_option_keeps.
Qed.

Lemma options_keep_grid (options : list ObjectiveOption) (o : ObjectiveFormulator) :
  Forall not_a_grid options → grid (apply_options o options) = grid o.
Proof.
  intros Hother. revert o. induction Hother as [|option options Hopt _ IH]; intros o; [done|].
  simpl. rewrite IH. by apply not_a_grid_keeps.
Qed.

(** X20. Options made by the four option functions never touch what is
    passed to [NewObjectiveFormulator] itself: the formulator has the
    query, source, judgments, population, folder and the three strings
    passed in, and seed 0. Its grid is the one of the last [ObjectiveGrid]
    option, whatever options stand before it and whatever options of the
    other three kinds after it; without any grid option it is the default
    DevK 0.20, PopK 0.02, MeSHK 20. *)
Theorem NewObjectiveFormulator_options (query : string * string * CQR)
    (s : EntrezStatisticsSource) (qrels : gmap string Eval.Qrel)
    (population : BackgroundCollection) (folder pubdates semTypes metamapURL : string)
    (options : list ObjectiveOption) :
  Forall made_option options →
  let o := NewObjectiveFormulator RandomSplitter TermFrequencyAnalyser query s qrels
             population folder pubdates semTypes metamapURL options in
  (Formulation.seed o = 0 ∧ Folder o = folder ∧ Pubdates o = pubdates ∧
   SemTypes o = semTypes ∧ MetaMapURL o = metamapURL ∧ Formulation.query o = query ∧
   Formulation.s o = s ∧ Formulation.qrels o = qrels ∧
   Formulation.population o = population) ∧
  (∀ before later devK popK meshK,
     options = before ++ ObjectiveGrid devK popK meshK :: later →
     Forall not_a_grid later →
     DevK o = devK ∧ PopK o = popK ∧ MeSHK o = meshK) ∧
  (Forall not_a_grid options →
     DevK o = [f0_20] ∧ PopK o = [f0_02] ∧ MeSHK o = [20]).
Proof.
  intros Hmade o. subst o. unfold NewObjectiveFormulator. cbv zeta.
  set (o0 := mkObjectiveFormulator _ _ _ _ _ _ _ _ _ _ _ _ _ _ _).
  split; [|split].
  - pose proof (options_keep options o0 Hmade) as Hkeep.
    injection Hkeep as H1 H2 H3 H4 H5 H6 H7 H8 H9.
    split_and!; [exact H1|exact H2|exact H3|exact H4|exact H5|exact H6|exact H7|
                 exact H8|exact H9].
  - intros before later devK popK meshK -> Hlater.
    rewrite foldl_app. simpl.
    pose proof (options_keep_grid later
                  (ObjectiveGrid devK popK meshK (apply_options o0 before)) Hlater) as Hgrid.
    injection Hgrid as H1 H2 H3. split_and!; [exact H1|exact H2|exact H3].
  - intros Hother. pose proof (options_keep_grid options o0 Hother) as Hgrid.
    injection Hgrid as H1 H2 H3. split_and!; [exact H1|exact H2|exact H3].
Qed.

End options.

Lemma Formulate_conceptual_one_query_or_error_witness :
  Formulate (CQR := string) (EntityExpanderT := unit) (KeywordMapperT := unit)
    (DataMarshaler := unit) (λ q _, (q, None)) (λ q _, (q +:+ "[tiab]", None))
    (NewConceptualFormulator "heart failure" "CD001" (λ title, (title, None))
       (λ q, (q, None)) None tt [])
    = (["heart failure[tiab]"], [], None).
Proof.
  rewrite <- (proj2 (Formulate_conceptual_one_query_or_error (DataMarshaler := unit)
                       (λ q _, (q, None)) (λ q _, (q +:+ "[tiab]", None))
                       (NewConceptualFormulator "heart failure" "CD001"
                          (λ title, (title, None)) (λ q, (q, None)) None tt []))
                    tt eq_refl (λ q, eq_refl)).
  reflexivity.
Defined.

Lemma NewObjectiveFormulator_options_witness :
  let o := NewObjectiveFormulator (CQR := nat) (Documents := list Z) (Terms := unit)
             (λ _ d, (d, [], [])) (λ _, (tt, None)) ("q", "T1", 0%nat) tt ∅ tt
             "folder" "dates" "types" "url"
             [ObjectiveGrid [fzero] [fzero] [1]; ObjectiveGrid [] [] [5];
              ObjectivePostProcessing []] in
  DevK o = [] ∧ PopK o = [] ∧ MeSHK o = [5].
Proof.
  assert (Hmade : Forall made_option
            [ObjectiveGrid (CQR := nat) (Documents := list Z) (Terms := unit)
               (BackgroundCollection := unit) (EntrezStatisticsSource := unit)
               [fzero] [fzero] [1];
             ObjectiveGrid [] [] [5]; ObjectivePostProcessing []]).
  { constructor; [left; by eexists _, _, _|].
    constructor; [left; by eexists _, _, _|].
    constructor; [right; right; right; by eexists|constructor]. }
  destruct (NewObjectiveFormulator_options (λ _ d, (d, [], [])) (λ _, (tt, None))
              ("q", "T1", 0%nat) tt ∅ tt "folder" "dates" "types" "url" _ Hmade)
    as (_ & Hlast & _).
  apply (Hlast [ObjectiveGrid [fzero] [fzero] [1]] [ObjectivePostProcessing []]);
    [reflexivity|].
  constructor; [right; right; by eexists|constructor].
Defined.

End FormulationMethodsFacts.

(** ** Testing a query chain *)

Module LearningTestFacts.
Import Learning LearningTest LoopFacts.

Section test.
Context {CandidateQuery Query Transformation Measurement
         StatisticsSource MeasurementExecutor CQR CQRQuery BooleanQuery : Type}.
Context (zeroCandidateQuery : CandidateQuery).
Context (NewCandidateQuery : Query → CandidateQuery).
Context (Variations : CandidateQuery → StatisticsSource → MeasurementExecutor →
                      list Measurement → list Transformation →
                      list CandidateQuery * option error).
Context {S : Type} `{!QueryChainCandidateSelector (CandidateQuery := CandidateQuery) S}.
Context (Query_ : CandidateQuery → CQR) (Topic : Query → string).
Context (CQRString : CQR → string * option error).
Context (Cqr2Medline : string → BooleanQuery * option error).
Context (BooleanString : BooleanQuery → string * option error).
Context (Join : string → string → string).
Context (mkdirAll : string → option error) (writeFile : string → string → option error).

Abbreviation test_query :=
  (test_query zeroCandidateQuery NewCandidateQuery Variations Query_ Topic CQRString
     Cqr2Medline BooleanString Join writeFile).
Abbreviation Test :=
  (Test zeroCandidateQuery NewCandidateQuery Variations Query_ Topic CQRString
     Cqr2Medline BooleanString Join mkdirAll writeFile).

Lemma test_queries (qc : QueryChain S) (out : string) (fuel : nat) (queries : list Query)
    (ops : list operation) :
  match for_range (test_query qc out fuel) queries ops with
  | Next ops' =>
      ∃ writes, ops' = ops ++ writes ∧
        omap written writes = (λ q, Join out (Topic q)) <$> queries ∧
        length writes = length queries
  | Exit None => True
  | Exit (Some (ops', err)) =>
      is_Some err ∧
      ∃ writes done, ops' = ops ++ writes ∧ done `prefix_of` queries ∧
        omap written writes = (λ q, Join out (Topic q)) <$> done ∧
        length writes = length done
  end.
Proof.
  revert ops. induction queries as [|q queries IH]; intros ops; simpl.
  - exists []. by rewrite app_nil_r.
  - assert (Hnone : ∀ e : error, is_Some (Some e) ∧
              ∃ writes done : list _, ops = ops ++ writes ∧ done `prefix_of` q :: queries ∧
                omap written writes = (λ q, Join out (Topic q)) <$> done ∧
                length writes = length done).
    { intros e. split; [by eexists|]. exists [], []. rewrite app_nil_r.
      split_and!; [done|apply prefix_nil|done|done]. }
    unfold LearningTest.test_query at 1.
    destruct (Execute _ _ _ qc q fuel) as [[tq [e|]]|]; [by apply Hnone| |done].
    destruct (CQRString (Query_ tq)) as [cq [e|]]; [by apply Hnone|].
    destruct (Cqr2Medline cq) as [bq [e|]]; [by apply Hnone|].
    destruct (BooleanString bq) as [ml [e|]]; [by apply Hnone|].
    destruct (writeFile (Join out (Topic q)) ml) as [e|].
    + split; [by eexists|]. exists [WriteFile (Join out (Topic q)) ml], [q].
      split_and!; [done| |done|done].
      by exists queries.
    + specialize (IH (ops ++ [WriteFile (Join out (Topic q)) ml])).
      destruct (for_range _ _ _) as [ops'|[[ops' err]|]]; [| |done].
      * destruct IH as (writes & -> & Hw & Hlen).
        exists (WriteFile (Join out (Topic q)) ml :: writes).
        split_and!; [by rewrite <- app_assoc|simpl; f_equal; exact Hw|simpl; by rewrite Hlen].
      * destruct IH as (Herr & writes & done & -> & Hpre & Hw & Hlen).
        split; [done|].
        exists (WriteFile (Join out (Topic q)) ml :: writes), (q :: done).
        split_and!; [by rewrite <- app_assoc|by apply prefix_cons|
                     simpl; f_equal; exact Hw|simpl; by rewrite Hlen].
Qed.

(** X21. [Test] first makes the output directory, then writes one file
    per query, in the order of the queries, named by joining the output
    directory and the query's topic. Without error there is one write for
    every query. With an error the writes are those of a first part of
    the queries: what was written before the failure stays written, and
    nothing is done for the queries after it. *)
Theorem Test_writes_one_file_per_topic (qc : QueryChain S) (TransformedOutput : string)
    (Queries : list Query) (fuel : nat) (ops : list operation) (err : option error) :
  Test qc TransformedOutput Queries fuel = Some (ops, err) →
  ∃ writes done,
    ops = MkdirAll TransformedOutput :: writes ∧
    done `prefix_of` Queries ∧
    omap written writes = (λ q, Join TransformedOutput (Topic q)) <$> done ∧
    length writes = length done ∧
    (err = None → done = Queries).
Proof.
  unfold LearningTest.Test. destruct (mkdirAll TransformedOutput) as [e|].
  { intros [= <- <-]. exists [], []. split_and!; [done|apply prefix_nil|done|done|done]. }
  pose proof (test_queries qc TransformedOutput fuel Queries [MkdirAll TransformedOutput])
    as Hloop.
  destruct (for_range _ _ _) as [ops'|[[ops' err']|]]; [| |done].
  - intros [= <- <-]. destruct Hloop as (writes & -> & Hw & Hlen).
    exists writes, Queries. split_and!; done.
  - intros [= <- <-]. destruct Hloop as ([e He] & writes & done & -> & Hpre & Hw & Hlen).
    exists writes, done. split_and!; [done..|]. by rewrite He.
Qed.

End test.

Import Scenario Scenario2.

Lemma Test_writes_one_file_per_topic_witness :
  Test (S := nat) 0%nat (λ q : nat, q) one_variation (λ cq : nat, cq) (λ q : nat, "T" +:+ pretty q)
       (λ cq : nat, (pretty cq, None)) (λ cq : string, (cq, None)) (λ bq : string, (bq, None))
       (λ a b, a +:+ "/" +:+ b) (λ _, None) write_protected chain "out"
       [1%nat; 2%nat; 3%nat] 3
    = Some ([MkdirAll "out"; WriteFile "out/T1" "2"; WriteFile "out/T2" "2"],
            Some (ErrOther "permission denied")) ∧
  ∃ writes done,
    [MkdirAll "out"; WriteFile "out/T1" "2"; WriteFile "out/T2" "2"]
      = MkdirAll "out" :: writes ∧
    done `prefix_of` [1%nat; 2%nat; 3%nat] ∧ length writes = length done.
Proof.
  assert (Hrun : Test (S := nat) 0%nat (λ q : nat, q) one_variation (λ cq : nat, cq)
                   (λ q : nat, "T" +:+ pretty q) (λ cq : nat, (pretty cq, None))
                   (λ cq : string, (cq, None)) (λ bq : string, (bq, None))
                   (λ a b, a +:+ "/" +:+ b) (λ _, None) write_protected chain "out"
                   [1%nat; 2%nat; 3%nat] 3
                 = Some ([MkdirAll "out"; WriteFile "out/T1" "2"; WriteFile "out/T2" "2"],
                         Some (ErrOther "permission denied"))) by (by vm_compute).
  split; [exact Hrun|].
  destruct (Test_writes_one_file_per_topic _ _ _ _ _ _ _ _ _ _ _ _ _ _ _ _ _ Hrun)
    as (writes & done & Hops & Hpre & _ & Hlen & _).
  by exists writes, done.
Defined.

End LearningTestFacts.
